(** * The orbit updater (pkg/update/update.go)

    A shallow embedding of the update client: path construction, the
    cache check of [Get], the staged install of [Download] and the
    metadata refresh of [UpdateMetadata], over an explicit model of the
    file system and of the collaborators the package calls. *)

From stdpp Require Import base strings gmap list.
From Stdlib Require Import ZArith Ascii String.
From Stdlib.Strings Require Import Byte.

Local Open Scope Z_scope.
Local Open Scope string_scope.

(** ** Go's [path] package

    [path.Join], [path.Clean], [path.Base] and [path.Dir] of the Go library,
    after their documented behaviour, on the slash-separated elements of
    the path. *)
Module path.

Definition slash : ascii := "/"%char.

(** The elements between slashes; [split "a//b" = ["a"; ""; "b"]]. *)
Fixpoint split (s : string) : list string :=
  match s with
  | EmptyString => [EmptyString]
  | String c r =>
      if Ascii.eqb c slash then EmptyString :: split r
      else match split r with
           | h :: t => String c h :: t
           | [] => [String c EmptyString]
           end
  end.

(** [strings.Join elems "/"]. *)
Fixpoint join (l : list string) : string :=
  match l with
  | [] => ""
  | x :: r => match r with [] => x | _ :: _ => x +:+ "/" +:+ join r end
  end.

Definition IsAbs (p : string) : bool :=
  match p with String c _ => Ascii.eqb c slash | EmptyString => false end.

(** One element of [Clean]'s scan; [stack] is the output so far, last
    element first.  Empty and "." elements are dropped, ".." removes the
    element before it, is dropped at the root, and is kept at the start of
    a relative path. *)
Definition clean_step (rooted : bool) (stack : list string) (e : string)
  : list string :=
  if decide (e = "" ∨ e = ".") then stack
  else if decide (e = "..") then
    match stack with
    | top :: rest => if decide (top = "..") then e :: stack else rest
    | [] => if rooted then [] else [e]
    end
  else e :: stack.

Definition Clean (p : string) : string :=
  let rooted := IsAbs p in
  let out := (if rooted then "/" else "")
             +:+ join (rev (foldl (clean_step rooted) [] (split p))) in
  if decide (out = "") then "." else out.

(** [Join] ignores empty elements and cleans the result; all elements
    empty gives the empty string. *)
Definition Join (elem : list string) : string :=
  let ne := filter (λ e, e ≠ "") elem in
  match ne with
  | [] => ""
  | _ :: _ => Clean (join ne)
  end.

(** [Base]: the last element, trailing slashes removed; "." for the empty
    path and "/" for a path of slashes only. *)
Definition Base (p : string) : string :=
  match last (filter (λ e, e ≠ "") (split p)) with
  | Some e => e
  | None => if decide (p = "") then "." else "/"
  end.

(** [Dir]: everything up to the final slash, cleaned. *)
Definition Dir (p : string) : string :=
  match split p with
  | [] | [_] => Clean ""
  | cs => Clean (join (removelast cs) +:+ "/")
  end.

(** An element that [Clean] keeps as it is. *)
Definition plain (e : string) : Prop :=
  e ≠ "" ∧ e ≠ "." ∧ e ≠ ".." ∧ split e = [e].

End path.

(** ** Go's [path/filepath] package, on a slash-separated file system. *)
Module filepath.
Definition Join := path.Join.
Definition Base := path.Base.
Definition Dir := path.Dir.
End filepath.

(** ** Errors

    Go error values: the sentinel [os.ErrNotExist], go-tuf's
    [client.ErrLatestSnapshot], other library and system errors, and the
    constructors of github.com/pkg/errors. *)
Inductive error : Type :=
| ErrNotExist
| ErrLatestSnapshot (version : Z)
| Errno (name : string)
| New (msg : string)
| Wrap (cause : error) (msg : string).

#[global] Instance error_eq_dec : EqDecision error.
Proof. solve_decision. Defined.

Module errors.

(** [errors.Cause]: the innermost error under the wrappers. *)
Fixpoint Cause (e : error) : error :=
  match e with
  | Wrap c _ => Cause c
  | _ => e
  end.

(** [errors.Is err os.ErrNotExist]: some error of the chain is the
    sentinel. *)
Fixpoint Is_NotExist (e : error) : bool :=
  match e with
  | ErrNotExist => true
  | Wrap c _ => Is_NotExist c
  | _ => false
  end.

End errors.


(** ** The world: file system and trace

    A file-system entry carries Go's [os.FileMode] (type bits and
    permission bits in one integer) and, for a file, its bytes. *)
Record node : Type := mkNode { mode : Z; data : list Byte.byte }.

#[global] Instance byte_eq_dec : EqDecision Byte.byte := Byte.byte_eq_dec.

(** What the code does to its collaborators, latest first. *)
Inductive event : Type :=
| EvLookup (repoPath : string)                (* client.Target *)
| EvFetch (repoPath : string)                 (* client.Download *)
| EvExec (name arg : string)                  (* exec.Command(name, arg) *)
| EvDownload (repoPath localPath : string).   (* a call of Updater.Download *)

Record World : Type := mkWorld { fs : gmap string node; log : list event }.

Definition set_fs (f : gmap string node → gmap string node) (w : World) : World :=
  {| fs := f (fs w); log := log w |}.

(** System calls whose failure the code looks at; [fault] of the host says
    which of them the system refuses, and with which error. *)
Inductive Op : Type :=
| OpStat (name : string)
| OpMkdirAll (name : string)
| OpChmod (name : string)
| OpOpenFile (name : string)
| OpClose (name : string)
| OpRename (oldpath newpath : string).

#[global] Instance Op_eq_dec : EqDecision Op.
Proof. solve_decision. Defined.

(** State and error monad of the Go functions that return an [error]. *)
Definition M (A : Type) : Type := World → World * (error + A).

#[global] Instance M_ret : MRet M := λ A a w, (w, inr a).
#[global] Instance M_bind : MBind M := λ A B k m w,
  match m w with
  | (w', inl e) => (w', inl e)
  | (w', inr a) => k a w'
  end.

Definition throw {A} (e : error) : M A := λ w, (w, inl e).

(** [if err != nil { return errors.Wrap(err, msg) }] *)
Definition wrap {A} (msg : string) (m : M A) : M A := λ w,
  match m w with
  | (w', inl e) => (w', inl (Wrap e msg))
  | (w', inr a) => (w', inr a)
  end.

(** [defer f()]: [f] runs on every way out of the rest of the function
    and leaves the returned value as it is. *)
Definition defer {A} (f : World → World) (body : M A) : M A := λ w,
  let '(w', r) := body w in (f w', r).

Definition trace (ev : event) : M unit := λ w,
  ({| fs := fs w; log := ev :: log w |}, inr ()).

(** The [error] result of a Go function: [None] is [nil]. *)
Definition err_of {A} (r : error + A) : option error :=
  match r with inl e => Some e | inr _ => None end.

(** ** The host: packages [constant] and [platform], and the system *)
Record Host : Type := mkHost {
  PlatformName : string;                   (* constant.PlatformName *)
  ExecutableExtension : string → string;   (* constant.ExecutableExtension *)
  DefaultDirMode : Z;                      (* constant.DefaultDirMode *)
  DefaultExecutableMode : Z;               (* constant.DefaultExecutableMode *)
  fault : Op → option error;
  (* what running a binary of the given bytes with one argument gives:
     combined output and error *)
  run : list Byte.byte → string → string * option error;
  (* the digest of the given bytes under the named algorithm *)
  hash : string → list Byte.byte → list Byte.byte
}.

(** ** Package [os] *)
Module os.

Definition ModeDir : Z := Z.shiftl 1 31.
Definition ModeSymlink : Z := Z.shiftl 1 27.
Definition ModeDevice : Z := Z.shiftl 1 26.
Definition ModeNamedPipe : Z := Z.shiftl 1 25.
Definition ModeSocket : Z := Z.shiftl 1 24.
Definition ModeCharDevice : Z := Z.shiftl 1 21.
Definition ModeIrregular : Z := Z.shiftl 1 19.
Definition ModeType : Z :=
  Eval cbv in
    Z.lor ModeDir (Z.lor ModeSymlink (Z.lor ModeNamedPipe (Z.lor ModeSocket
      (Z.lor ModeDevice (Z.lor ModeCharDevice ModeIrregular))))).
Definition ModePerm : Z := 511. (* 0777 *)

Definition IsDir (m : Z) : bool := negb (Z.eqb (Z.land m ModeDir) 0).
Definition IsRegular (m : Z) : bool := Z.eqb (Z.land m ModeType) 0.

Definition O_WRONLY : Z := 1.
Definition O_CREATE : Z := 64.
Definition O_TRUNC : Z := 512.
Definition has_flag (flag bit : Z) : bool := negb (Z.eqb (Z.land flag bit) 0).

Definition failing {A} (h : Host) (op : Op) (m : M A) : M A :=
  match fault h op with
  | Some e => throw e
  | None => m
  end.

(** [os.Stat]: the mode of the entry. *)
Definition Stat (h : Host) (name : string) : M Z :=
  failing h (OpStat name) (λ w,
    match fs w !! name with
    | Some nd => (w, inr (mode nd))
    | None => (w, inl ErrNotExist)
    end).

(** The non-empty prefixes of a list, shortest first. *)
Fixpoint prefixes {A} (l : list A) : list (list A) :=
  match l with
  | [] => []
  | x :: r => [x] :: map (cons x) (prefixes r)
  end.

(** The directories above [name], outermost first. *)
Definition parents (name : string) : list string :=
  filter (λ d, d ≠ "")
    (map path.join (prefixes (removelast (path.split name)))).

Definition dir_node (perm : Z) : node :=
  mkNode (Z.lor ModeDir (Z.land perm ModePerm)) [].

Fixpoint mkdirs (perm : Z) (ds : list string) (m : gmap string node)
  : gmap string node * option error :=
  match ds with
  | [] => (m, None)
  | d :: r =>
      match m !! d with
      | Some nd =>
          if IsDir (mode nd) then mkdirs perm r m
          else (m, Some (Errno "ENOTDIR"))
      | None => mkdirs perm r (<[d := dir_node perm]> m)
      end
  end.

(** [os.MkdirAll]: nothing to do for a directory, an error for another
    entry; otherwise the missing directories above [name] are made, then
    [name] itself. *)
Definition MkdirAll (h : Host) (name : string) (perm : Z) : M unit :=
  failing h (OpMkdirAll name) (λ w,
    match fs w !! name with
    | Some nd =>
        if IsDir (mode nd) then (w, inr ()) else (w, inl (Errno "ENOTDIR"))
    | None =>
        match mkdirs perm (parents name) (fs w) with
        | (m, Some e) => (set_fs (λ _, m) w, inl e)
        | (m, None) =>
            if decide (name = "") then (set_fs (λ _, m) w, inl ErrNotExist)
            else
              match m !! name with
              | Some nd =>
                  if IsDir (mode nd) then (set_fs (λ _, m) w, inr ())
                  else (set_fs (λ _, m) w, inl (Errno "EEXIST"))
              | None =>
                  (set_fs (λ _, <[name := dir_node perm]> m) w, inr ())
              end
        end
    end).

(** [os.Chmod]: the permission bits are replaced, the type bits stay. *)
Definition chmod_node (perm : Z) (nd : node) : node :=
  mkNode (Z.lor (Z.land (mode nd) (Z.lnot ModePerm)) (Z.land perm ModePerm))
         (data nd).

Definition Chmod (h : Host) (name : string) (perm : Z) : M unit :=
  failing h (OpChmod name) (λ w,
    match fs w !! name with
    | Some nd => (set_fs (<[name := chmod_node perm nd]>) w, inr ())
    | None => (w, inl ErrNotExist)
    end).

(** [os.OpenFile] for writing; the open file is stood for by its name
    ([File.Name]).  [perm] is used only when the file is created. *)
Definition OpenFile (h : Host) (name : string) (flag perm : Z) : M string :=
  failing h (OpOpenFile name) (λ w,
    match fs w !! name with
    | Some nd =>
        if IsDir (mode nd) then (w, inl (Errno "EISDIR"))
        else if has_flag flag O_TRUNC
        then (set_fs (<[name := mkNode (mode nd) []]>) w, inr name)
        else (w, inr name)
    | None =>
        if has_flag flag O_CREATE
        then (set_fs (<[name := mkNode (Z.land perm ModePerm) []]>) w, inr name)
        else (w, inl ErrNotExist)
    end).

(** Writing [new] through a file just opened: from offset 0, over what
    is there. *)
Definition write_over (new old : list Byte.byte) : list Byte.byte :=
  (new ++ drop (List.length new) old)%list.

Definition File_Write (name : string) (new : list Byte.byte) (w : World) : World :=
  set_fs (alter (λ nd, mkNode (mode nd) (write_over new (data nd))) name) w.

(** [File.Close] *)
Definition File_Close (h : Host) (name : string) : M unit :=
  failing h (OpClose name) (mret ()).

(** [os.Rename]: the entry moves and replaces what is at [newpath]; a
    directory does not replace a file, nor a file a directory; nothing
    changes when it fails.  Only the entry at [oldpath] itself is moved:
    the entries below a directory are not followed, so what is proved
    through a rename is proved for the rename of a file. *)
Definition Rename (h : Host) (oldpath newpath : string) : M unit :=
  failing h (OpRename oldpath newpath) (λ w,
    match fs w !! oldpath with
    | None => (w, inl ErrNotExist)
    | Some nd =>
        match fs w !! newpath with
        | Some tgt =>
            if Bool.eqb (IsDir (mode tgt)) (IsDir (mode nd))
            then (set_fs (λ m, <[newpath := nd]> (delete oldpath m)) w, inr ())
            else (w, inl (Errno (if IsDir (mode tgt) then "EISDIR" else "ENOTDIR")))
        | None => (set_fs (λ m, <[newpath := nd]> (delete oldpath m)) w, inr ())
        end
    end).

(** [os.Remove], as the deferred cleanup uses it: its error is dropped. *)
Definition Remove (name : string) (w : World) : World := set_fs (delete name) w.

End os.

(** ** Package [exec] *)
Module exec.
(** [exec.Command(name, arg).CombinedOutput()]: the file at [name] is
    run; what it prints and whether it fails is the host's [run] of its
    bytes. *)
Definition CombinedOutput (h : Host) (name arg : string) (w : World)
  : World * (string * option error) :=
  let w1 := {| fs := fs w; log := EvExec name arg :: log w |} in
  match fs w !! name with
  | Some nd => (w1, run h (data nd) arg)
  | None => (w1, ("", Some ErrNotExist))
  end.
End exec.

(** ** Package [platform]

    Modelled from the spec: [platform.ChmodExecutable] and
    [platform.ChmodExecutableDirectory] are declared outside update.go.
    They are the "permission-bit adjustment" of the spec, "a no-op on
    platforms where the creation mode already suffices": a chmod to the
    mode the entry is created with. *)
Module platform.
Definition ChmodExecutableDirectory (h : Host) (name : string) : M unit :=
  wrap "chmod executable directory" (os.Chmod h name (DefaultDirMode h)).
Definition ChmodExecutable (h : Host) (name : string) : M unit :=
  wrap "chmod executable" (os.Chmod h name (DefaultExecutableMode h)).
End platform.

(** ** go-tuf: packages [data] and [client] *)
Module data.
(** [data.TargetFileMeta]: length and digests by algorithm name. *)
Record TargetFileMeta : Type := mkMeta {
  Length : Z;
  Hashes : gmap string (list Byte.byte)
}.
End data.

Module client.
(** [client.IsLatestSnapshot]: a type assertion on the error itself. *)
Definition IsLatestSnapshot (e : error) : bool :=
  match e with ErrLatestSnapshot _ => true | _ => false end.

(** The verified state of a go-tuf [client.Client], as far as the updater
    sees it: what a refresh answers, the metadata of each target path,
    and what fetching a target gives: the verified bytes, or an error
    after some bytes have been written. *)
Record Client : Type := mkClient {
  refresh : option error;
  targets : string → error + data.TargetFileMeta;
  remote : string → (error * list Byte.byte) + list Byte.byte
}.

(** [Client.Update] *)
Definition Update (c : Client) : M unit := λ w,
  match refresh c with
  | Some e => (w, inl e)
  | None => (w, inr ())
  end.

(** [Client.Target] *)
Definition Target (c : Client) (name : string) : M data.TargetFileMeta := λ w,
  ({| fs := fs w; log := EvLookup name :: log w |}, targets c name).

(** [Client.Download] into the open file [dest]. *)
Definition Download (c : Client) (name dest : string) : M unit := λ w,
  let w1 := {| fs := fs w; log := EvFetch name :: log w |} in
  match remote c name with
  | inl (e, part) => (os.File_Write dest part w1, inl e)
  | inr bytes => (os.File_Write dest bytes w1, inr ())
  end.

(** The client has verified what it hands out: bytes it delivers for a
    target have the digests of that target's metadata. *)
Definition verified (h : Host) (c : Client) : Prop :=
  ∀ name bytes, remote c name = inr bytes →
    ∃ meta, targets c name = inr meta ∧
      map_Forall (λ alg digest, hash h alg bytes = digest) (data.Hashes meta).
End client.

(** ** Package [update] *)

Definition binDir : string := "bin".
Definition stagingDir : string := "staging".

(** The fields of [Options] the functions below read. *)
Record Options : Type := mkOptions {
  RootDirectory : string;
  ServerURL : string;
  InsecureTransport : bool;
  RootKeys : string;
  Platform : string;
  OrbitChannel : string;
  OsquerydChannel : string
}.

Record Updater : Type := mkUpdater { opt : Options; client : client.Client }.

Section Update.
Context (u : Updater) (h : Host).

(** update.go, [UpdateMetadata]. *)
Definition UpdateMetadata (w : World) : World * option error :=
  match client.Update (client u) w with
  | (w', inl err) =>
      if negb (client.IsLatestSnapshot (errors.Cause err))
      then (w', Some (Wrap err "update metadata"))
      else (w', None)
  | (w', inr _) => (w', None)
  end.

Definition pathFromRoot (parts : list string) : string :=
  filepath.Join (RootDirectory (opt u) :: parts).

Definition RepoPath (target channel : string) : string :=
  path.Join [target; Platform (opt u); channel;
             target +:+ ExecutableExtension h (Platform (opt u))].

Definition LocalPath (target channel : string) : string :=
  pathFromRoot [filepath.Join [binDir; target; Platform (opt u); channel;
                  target +:+ ExecutableExtension h (Platform (opt u))]].

(** update.go, [Lookup]. *)
Definition Lookup (target channel : string) : M data.TargetFileMeta :=
  wrap ("lookup " +:+ target +:+ "@" +:+ channel)
       (client.Target (client u) (RepoPath target channel)).

(** Modelled from the spec: [CheckFileHash] is declared in another file
    of the package.  "Compute the local file's hash using each algorithm
    present in TargetMeta and compare; if every algorithm matches, the
    cached artifact is accepted." *)
Definition CheckFileHash (meta : data.TargetFileMeta) (localPath : string)
  : M unit := λ w,
  match fs w !! localPath with
  | None => (w, inl ErrNotExist)
  | Some nd =>
      if bool_decide (map_Forall (λ alg digest, hash h alg (data nd) = digest)
                        (data.Hashes meta))
      then (w, inr ())
      else (w, inl (Wrap (Errno "hash mismatch") "hash does not match"))
  end.

(** The staging file of a download to [localPath] (update.go:180,193). *)
Definition stagingPath (localPath : string) : string :=
  filepath.Join [filepath.Join [RootDirectory (opt u); stagingDir];
                 filepath.Base localPath].

(** update.go:180-199: the staging directory and the staging file. *)
Definition openStaging (localPath : string) : M string :=
  let staging := filepath.Join [RootDirectory (opt u); stagingDir] in
  wrap "initialize download dir" (os.MkdirAll h staging (DefaultDirMode h));;
  platform.ChmodExecutableDirectory h staging;;
  wrap "open temp file for download"
    (os.OpenFile h (filepath.Join [staging; filepath.Base localPath])
       (Z.lor os.O_CREATE os.O_WRONLY) (DefaultExecutableMode h)).

(** update.go:200-203: the deferred close and removal. *)
Definition cleanup (tmp : string) (w : World) : World := os.Remove tmp w.

(** update.go:204-224: permissions, destination directory, transfer and
    close. *)
Definition fillStaging (repoPath localPath tmp : string) : M unit :=
  wrap "chmod download" (platform.ChmodExecutable h tmp);;
  wrap "initialize download dir"
    (os.MkdirAll h (filepath.Dir localPath) (DefaultDirMode h));;
  platform.ChmodExecutableDirectory h (filepath.Dir localPath);;
  wrap ("download target " +:+ repoPath)
    (client.Download (client u) repoPath tmp);;
  wrap "close tmp file" (os.File_Close h tmp).

(** update.go:226-234: the new binary is run only when it is one of this
    platform. *)
Definition smokeTest (tmp : string) : M unit :=
  if decide (Platform (opt u) = PlatformName h) then
    λ w, match exec.CombinedOutput h tmp "--version" w with
         | (w', (out, Some err)) =>
             (w', inl (Wrap err ("exec new version: " +:+ out)))
         | (w', (_, None)) => (w', inr ())
         end
  else mret ().

(** update.go:236-247: the old file is moved away on Windows, then the
    staging file is moved in. *)
Definition publish (localPath tmp : string) : M unit :=
  (if decide (PlatformName h = "windows") then
     λ w, match os.Rename h localPath (localPath +:+ ".old") w with
          | (w', inl err) =>
              if negb (errors.Is_NotExist err)
              then (w', inl (Wrap err "rename old"))
              else (w', inr ())
          | (w', inr _) => (w', inr ())
          end
   else mret ());;
  wrap "move download" (os.Rename h tmp localPath).

(** update.go, [Download]. *)
Definition Download (repoPath localPath : string) : M unit :=
  trace (EvDownload repoPath localPath);;
  tmp ← openStaging localPath;
  defer (cleanup tmp)
    (fillStaging repoPath localPath tmp;;
     smokeTest tmp;;
     publish localPath tmp).

(** update.go, [Get]: the path and the error it returns. *)
Definition Get (target channel : string) (w : World)
  : World * (string * option error) :=
  if decide (target = "") then (w, ("", Some (New "target is required")))
  else if decide (channel = "") then (w, ("", Some (New "channel is required")))
  else
    let localPath := LocalPath target channel in
    let repoPath := RepoPath target channel in
    match os.Stat h localPath w with
    | (w1, inl _) =>
        let '(w2, r) := Download repoPath localPath w1 in
        (w2, (localPath, err_of r))
    | (w1, inr stat) =>
        if negb (os.IsRegular stat)
        then (w1, ("", Some (New ("expected " +:+ localPath +:+ " to be regular file"))))
        else
          match Lookup target channel w1 with
          | (w2, inl err) => (w2, ("", Some err))
          | (w2, inr meta) =>
              match CheckFileHash meta localPath w2 with
              | (w3, inl _) =>
                  let '(w4, r) := Download repoPath localPath w3 in
                  (w4, (localPath, err_of r))
              | (w3, inr _) => (w3, (localPath, None))
              end
          end
    end.

End Update.

(** ** Construction of an updater (update.go, [New])

    What [New] asks of go-tuf, of [encoding/json] and of the local store
    of the options: each answer as the call gives it.  The local store
    is not part of the file system of [World]: what [Init] saves in it
    is not modelled, only whether it fails. *)
Record Key : Type := mkKey {       (* data.Key *)
  keytype : string;
  scheme : string;
  keyid_hash_algorithms : list string;
  keyval : string
}.

Record Setup : Type := mkSetup {
  (* client.HTTPRemoteStore(url, nil, httpClient): the error, if any *)
  HTTPRemoteStore : string → option error;
  (* json.Unmarshal of the root keys *)
  Unmarshal : string → error + list Key;
  (* opt.LocalStore.GetMeta(): the stored documents by name; [None] is a
     nil json.RawMessage *)
  GetMeta : error + gmap string (option (list Byte.byte));
  (* tufClient.Init(rootKeys, threshold) *)
  Init : list Key → Z → option error;
  (* client.NewClient(opt.LocalStore, remoteStore) *)
  NewClient : client.Client
}.

Module update.
Section Construction.
Context (h : Host) (s : Setup).

(** update.go:254-265, the loop of [initializeDirectories]. *)
Fixpoint mkdir_each (dirs : list string) : M unit :=
  match dirs with
  | [] => mret ()
  | dir :: rest =>
      wrap "initialize directories" (os.MkdirAll h dir (DefaultDirMode h));;
      mkdir_each rest
  end.

(** update.go, [initializeDirectories]. *)
Definition initializeDirectories (u : Updater) : M unit :=
  mkdir_each [pathFromRoot u [binDir]].

(** [meta["root.json"] == nil] *)
Definition no_root (meta : gmap string (option (list Byte.byte))) : bool :=
  match meta !! "root.json" with
  | Some (Some _) => false
  | Some None | None => true
  end.

(** update.go, [New]. *)
Definition New (opt : Options) : M Updater :=
  match HTTPRemoteStore s (ServerURL opt) with
  | Some err => throw (Wrap err "init remote store")
  | None =>
      let tufClient := NewClient s in
      match Unmarshal s (RootKeys opt) with
      | inl err => throw (Wrap err "unmarshal root keys")
      | inr _ =>
          (if match GetMeta s with
              | inl _ => true
              | inr meta => no_root meta
              end
           then
             match Unmarshal s (RootKeys opt) with
             | inl err => throw (Wrap err "unmarshal root keys")
             | inr rootKeys =>
                 match Init s rootKeys 1 with
                 | Some err => throw (Wrap err "init tuf client")
                 | None => mret ()
                 end
             end
           else mret ());;
          let updater := mkUpdater opt tufClient in
          initializeDirectories updater;;
          mret updater
      end
  end.

End Construction.
End update.

(** ** Path construction as the spec writes it

    The patterns [<target>/<platform>/<channel>/<target><ext>] and
    [<root>/bin/<target>/<platform>/<channel>/<target><ext>] of the spec,
    read as plain concatenation. *)
Definition RepoPath_pattern (u : Updater) (h : Host) (target channel : string)
  : string :=
  target +:+ "/" +:+ Platform (opt u) +:+ "/" +:+ channel +:+ "/"
  +:+ target +:+ ExecutableExtension h (Platform (opt u)).

Definition LocalPath_pattern (u : Updater) (h : Host) (target channel : string)
  : string :=
  RootDirectory (opt u) +:+ "/" +:+ binDir +:+ "/"
  +:+ RepoPath_pattern u h target channel.

(** ** Concrete configurations used in the examples below *)
Module Ex.

Definition host (pn : string) (flt : Op → option error)
    (rn : list Byte.byte → string → string * option error) : Host :=
  {| PlatformName := pn;
     ExecutableExtension := λ p, if decide (p = "windows") then ".exe" else "";
     DefaultDirMode := 493;           (* 0755 *)
     DefaultExecutableMode := 493;
     fault := flt;
     run := rn;
     (* a stand-in digest: the bytes themselves *)
     hash := λ _ bytes, bytes |}.

Definition no_fault : Op → option error := λ _, None.
Definition runs_fine : list Byte.byte → string → string * option error :=
  λ _ _, ("orbit 0.0.1", None).
Definition crashes : list Byte.byte → string → string * option error :=
  λ _ _, ("exec format error", Some (Errno "exit status 1")).

Definition linux : Host := host "linux" no_fault runs_fine.
Definition windows : Host := host "windows" no_fault runs_fine.
(** A linux host on which the new binary does not run. *)
Definition broken : Host := host "linux" no_fault crashes.
(** Another platform than the target's, where it would not run either. *)
Definition darwin : Host := host "darwin" no_fault crashes.
(** A Windows host that refuses the final rename. *)
Definition locked : Host :=
  host "windows"
    (λ op, if decide (op = OpRename "/opt/orbit/staging/orbit"
                             "/opt/orbit/bin/orbit/linux/stable/orbit")
           then Some (Errno "EACCES") else None)
    runs_fine.
(** A linux host that refuses the chmod of the staging directory. *)
Definition readonly : Host :=
  host "linux"
    (λ op, if decide (op = OpChmod "/opt/orbit/staging")
           then Some (Errno "EPERM") else None)
    runs_fine.

Definition options (plat : string) : Options :=
  mkOptions "/opt/orbit" "https://tuf.example.com" false "[]" plat
            "stable" "stable".

Definition bytes (s : string) : list Byte.byte := list_byte_of_string s.

(** A repository with one target, at [name], whose bytes are "new". *)
Definition repo_at (name : string) (upd : option error) : client.Client :=
  {| client.refresh := upd;
     client.targets := λ n,
       if decide (n = name)
       then inr (data.mkMeta 3 {[ "sha256" := bytes "new" ]})
       else inl (Errno "ErrNotFound");
     client.remote := λ n,
       if decide (n = name)
       then inr (bytes "new")
       else inl (Errno "ErrNotFound", []) |}.

(** The target "orbit" for linux on the stable channel. *)
Definition repo : option error → client.Client :=
  repo_at "orbit/linux/stable/orbit".

Definition updater : Updater := mkUpdater (options "linux") (repo None).

Definition target : string := "orbit/linux/stable/orbit".
Definition local : string := "/opt/orbit/bin/orbit/linux/stable/orbit".
Definition staged : string := "/opt/orbit/staging/orbit".

Definition empty : World := mkWorld ∅ [].
Definition installed (content : string) : World :=
  mkWorld {[ local := mkNode 493 (bytes content) ]} [].
(** Nothing installed, and a file left at the staging path. *)
Definition leftover (content : string) : World :=
  mkWorld {[ staged := mkNode 384 (bytes content) ]} [].
(** The old binary installed, and a file left at the staging path. *)
Definition interrupted : World :=
  mkWorld {[ local := mkNode 493 (bytes "old");
             staged := mkNode 384 (bytes "stale!!") ]} [].
(** Nothing installed, and a file of the configuration. *)
Definition configured : World :=
  mkWorld {[ "/opt/orbit/osquery.flags" := mkNode 420 (bytes "keep") ]} [].
(** A linux host on which stat of the local path is always refused. *)
Definition blind : Host :=
  host "linux"
    (λ op, if decide (op = OpStat "/opt/orbit/bin/orbit/linux/stable/orbit")
           then Some (Errno "EACCES") else None)
    runs_fine.
(** An updater whose repository has a target named "../staging/x". *)
Definition dotted : Updater :=
  mkUpdater (options "linux") (repo_at "../staging/x" None).

(** The staging directory and the directory of the target in place. *)
Definition dir : node := mkNode (Z.lor os.ModeDir 493) [].
Definition prepared : World :=
  mkWorld {[ "/opt/orbit/staging" := dir;
             "/opt/orbit/bin/orbit/linux/stable" := dir ]} [].

(** What [New] finds: a server URL must not be empty, the root keys are
    the empty JSON list, the local store holds a root document or
    nothing, and the trust initialisation answers [init]. *)
Definition setup (stored : bool) (init : option error) : Setup :=
  {| HTTPRemoteStore := λ url,
       if decide (url = "") then Some (Errno "ErrInvalidURL") else None;
     Unmarshal := λ keys,
       if decide (keys = "[]") then inr []
       else inl (Errno "invalid character");
     GetMeta := inr (if stored then {[ "root.json" := Some (bytes "{}") ]}
                     else ∅);
     Init := λ _ _, init;
     NewClient := repo None |}.

End Ex.

(** ** Notions used in the statements *)

(** Every entry that is not a directory is the same in both file
    systems. *)
Definition same_files (m m' : gmap string node) : Prop :=
  ∀ p nd, os.IsDir (mode nd) = false → m !! p = Some nd ↔ m' !! p = Some nd.

(** The same, but for the path [t]. *)
Definition same_files_except (t : string) (m m' : gmap string node) : Prop :=
  ∀ p nd, p ≠ t → os.IsDir (mode nd) = false →
    m !! p = Some nd ↔ m' !! p = Some nd.

Definition is_fetch (ev : event) : bool :=
  match ev with EvFetch _ => true | _ => false end.
Definition is_exec (ev : event) : bool :=
  match ev with EvExec _ _ => true | _ => false end.
Definition is_lookup (ev : event) : bool :=
  match ev with EvLookup _ => true | _ => false end.

(** How many events of a kind a trace holds. *)
Definition count (k : event → bool) (l : list event) : nat :=
  List.length (List.filter k l).

(** The world in which the body of [Download] starts: the call is on the
    trace. *)
Definition entered (repoPath localPath : string) (w : World) : World :=
  {| fs := fs w; log := EvDownload repoPath localPath :: log w |}.

(** [Download] gets as far as the closed transfer (update.go:180-224
    without error), in world [w2]. *)
Definition filled (u : Updater) (h : Host) (repoPath localPath : string)
    (w w2 : World) : Prop :=
  ∃ w1, openStaging u h localPath (entered repoPath localPath w)
          = (w1, inr (stagingPath u localPath)) ∧
        fillStaging u h repoPath localPath (stagingPath u localPath) w1
          = (w2, inr ()).

(** [Download] gets as far as the publish step (update.go:180-234 without
    error), in world [w3]. *)
Definition staged (u : Updater) (h : Host) (repoPath localPath : string)
    (w w3 : World) : Prop :=
  ∃ w2, filled u h repoPath localPath w w2 ∧
        smokeTest u h (stagingPath u localPath) w2 = (w3, inr ()).

(** The system says "does not exist" only of a path that does not exist:
    no injected rename failure is of that kind. *)
Definition faithful_rename (h : Host) : Prop :=
  ∀ a b e, fault h (OpRename a b) = Some e → errors.Is_NotExist e = false.

(** * Metadata refresh *)

(** C4. [UpdateMetadata] returns nil exactly when the refresh succeeds or
    fails with an error whose cause is the latest-snapshot error; any
    other refresh error comes back, wrapped, with the same cause. *)
Theorem UpdateMetadata_suppresses_latest_snapshot (u : Updater) (w : World) :
  (snd (UpdateMetadata u w) = None ↔
     client.refresh (client u) = None ∨
     ∃ e v, client.refresh (client u) = Some e ∧
            errors.Cause e = ErrLatestSnapshot v) ∧
  (∀ e, client.refresh (client u) = Some e →
        (∀ v, errors.Cause e ≠ ErrLatestSnapshot v) →
        UpdateMetadata u w = (w, Some (Wrap e "update metadata")) ∧
        errors.Cause (Wrap e "update metadata") = errors.Cause e).
Proof.
  unfold UpdateMetadata, client.Update, client.IsLatestSnapshot.
  destruct (client.refresh (client u)) as [e|] eqn:Hr; cbn.
  - split.
    + destruct (errors.Cause e) eqn:Hc; cbn; split; intros H;
        try discriminate; eauto;
        destruct H as [H | (e' & v & He & Hv)]; try discriminate;
        inversion He; subst; congruence.
    + intros e' He Hv. inversion He; subst e'.
      destruct (errors.Cause e) eqn:Hc; cbn; auto.
      exfalso. eapply Hv; reflexivity.
  - split; [split; auto|]. intros e He. discriminate.
Qed.

Lemma UpdateMetadata_suppresses_latest_snapshot_witness :
  snd (UpdateMetadata
         (mkUpdater (Ex.options "linux")
            (Ex.repo (Some (Wrap (ErrLatestSnapshot 7) "tuf: update"))))
         Ex.empty) = None
  ∧ UpdateMetadata
      (mkUpdater (Ex.options "linux") (Ex.repo (Some (Errno "timeout"))))
      Ex.empty
    = (Ex.empty, Some (Wrap (Errno "timeout") "update metadata")).
Proof.
  split.
  - apply (proj1 (UpdateMetadata_suppresses_latest_snapshot _ _)).
    right. exists (Wrap (ErrLatestSnapshot 7) "tuf: update"), 7.
    split; reflexivity.
  - apply (proj2 (UpdateMetadata_suppresses_latest_snapshot _ _)
             (Errno "timeout")); [reflexivity | discriminate].
Defined.

(** * Paths *)
Section PathFacts.
Import path.

Lemma plain_head (e : string) :
  e ≠ "" → split e = [e] → IsAbs e = false.
Proof.
  destruct e as [|c r]; [done|]. intros _. cbn.
  destruct (Ascii.eqb c slash); [|done].
  intros H. inversion H.
Qed.

Lemma split_elem_slash (a r : string) :
  split a = [a] → split (a +:+ String slash r) = a :: split r.
Proof.
  induction a as [|c a IH]; intros H; [done|].
  simpl in H. simpl.
  destruct (Ascii.eqb c slash); [inversion H|].
  destruct (split a) as [|x t] eqn:Hs.
  - injection H as Ha. subst a. discriminate.
  - injection H as Hx Ht. subst x t. rewrite IH by done. done.
Qed.

Lemma split_join (l : list string) :
  l ≠ [] → Forall (λ e, split e = [e]) l → split (join l) = l.
Proof.
  induction l as [|x l IH]; [done|]. intros _ Hl.
  apply Forall_cons in Hl as [Hx Hl].
  destruct l as [|y l]; [done|].
  change (join (x :: y :: l)) with (x +:+ String slash (join (y :: l))).
  rewrite split_elem_slash by done. f_equal. by apply IH.
Qed.

Lemma clean_plain_elems (rooted : bool) (l st : list string) :
  Forall plain l → foldl (clean_step rooted) st l = (rev l ++ st)%list.
Proof.
  revert st. induction l as [|x l IH]; intros st Hl; [done|].
  apply Forall_cons in Hl as [(Hx1 & Hx2 & Hx3 & _) Hl]. cbn.
  rewrite IH by done. unfold clean_step.
  rewrite decide_False by (intros [?|?]; done).
  rewrite decide_False by done.
  by rewrite <- app_assoc.
Qed.

Lemma join_nonempty (x : string) (l : list string) :
  x ≠ "" → join (x :: l) ≠ "".
Proof. destruct x; [done|]. destruct l; cbn; done. Qed.

Lemma Forall_plain_split (l : list string) :
  Forall plain l → Forall (λ e, split e = [e]) l.
Proof. intros Hl. eapply Forall_impl; [exact Hl|]. by intros e (_ & _ & _ & ?). Qed.

(** A relative path of plain elements is clean. *)
Lemma Clean_plain_rel (l : list string) :
  l ≠ [] → Forall plain l → Clean (join l) = join l.
Proof.
  intros Hne Hl. unfold Clean.
  destruct l as [|x l]; [done|].
  pose proof Hl as Hl'. apply Forall_cons in Hl' as [(Hx & _ & _ & Hs) _].
  assert (IsAbs (join (x :: l)) = false) as ->.
  { destruct x as [|c x]; [done|]. pose proof (plain_head _ Hx Hs) as Hc.
    destruct l; cbn in *; done. }
  rewrite split_join by (done || by apply Forall_plain_split).
  rewrite clean_plain_elems, app_nil_r, rev_involutive by done.
  cbn [String.append]. rewrite decide_False; [done|]. by apply join_nonempty.
Qed.

(** So is a rooted one. *)
Lemma Clean_plain_abs (l : list string) :
  Forall plain l → Clean (String slash (join l)) = String slash (join l).
Proof.
  intros Hl. unfold Clean. cbn [IsAbs split]. rewrite Ascii.eqb_refl.
  destruct l as [|x l].
  - reflexivity.
  - rewrite split_join by (done || by apply Forall_plain_split).
    change (foldl (clean_step true) [] ("" :: x :: l))
      with (foldl (clean_step true) [] (x :: l)).
    rewrite clean_plain_elems, app_nil_r, rev_involutive by done.
    rewrite decide_False; [done|]. done.
Qed.

Lemma append_assoc (a b c : string) : (a +:+ b) +:+ c = a +:+ (b +:+ c).
Proof.
  induction a as [|x a IH]; [done|].
  change (String x ((a +:+ b) +:+ c) = String x (a +:+ (b +:+ c))).
  by rewrite IH.
Qed.

Lemma join_app (a b : list string) :
  a ≠ [] → b ≠ [] → join (a ++ b) = join a +:+ "/" +:+ join b.
Proof.
  induction a as [|x a IH]; [done|]. intros _ Hb.
  destruct a as [|y a].
  - destruct b; [done|]. reflexivity.
  - change (join ((x :: y :: a) ++ b)) with (x +:+ "/" +:+ join ((y :: a) ++ b)).
    rewrite IH by done.
    change (join (x :: y :: a)) with (x +:+ "/" +:+ join (y :: a)).
    by rewrite !append_assoc.
Qed.

Lemma filter_nonempty_plain (l : list string) :
  Forall plain l → filter (λ e, e ≠ "") l = l.
Proof.
  induction 1 as [|x l (Hx & _) _ IH]; [done|].
  rewrite filter_cons_True by done. by rewrite IH.
Qed.

Lemma Join_plain (l : list string) :
  l ≠ [] → Forall plain l → Join l = join l.
Proof.
  intros Hne Hl. unfold Join. rewrite filter_nonempty_plain by done.
  destruct l; [done|]. by apply Clean_plain_rel.
Qed.

(** [Clean] never answers the empty string. *)
Lemma Clean_nonempty (p : string) : Clean p ≠ "".
Proof. unfold Clean. case_decide; done. Qed.

Lemma Join_nonempty (x : string) (l : list string) :
  x ≠ "" → Join (x :: l) ≠ "".
Proof.
  intros Hx. unfold Join. rewrite filter_cons_True by done.
  apply Clean_nonempty.
Qed.

End PathFacts.

Ltac plain_elems := repeat (constructor; [done|]); constructor.

Lemma plain_binDir : path.plain binDir.
Proof. repeat split; done. Qed.

Lemma RepoPath_plain (u : Updater) (h : Host) (target channel : string) :
  path.plain target → path.plain (Platform (opt u)) → path.plain channel →
  path.plain (target +:+ ExecutableExtension h (Platform (opt u))) →
  RepoPath u h target channel = RepoPath_pattern u h target channel.
Proof.
  intros Ht Hp Hc He. unfold RepoPath.
  rewrite Join_plain by (done || plain_elems). reflexivity.
Qed.

Lemma LocalPath_plain (u : Updater) (h : Host) (target channel : string)
    (rooted : bool) (rs : list string) :
  path.plain target → path.plain (Platform (opt u)) → path.plain channel →
  path.plain (target +:+ ExecutableExtension h (Platform (opt u))) →
  rs ≠ [] → Forall path.plain rs →
  RootDirectory (opt u) = (if rooted then "/" else "") +:+ path.join rs →
  LocalPath u h target channel = LocalPath_pattern u h target channel.
Proof.
  intros Ht Hp Hc He Hne Hrs Hroot.
  pose proof plain_binDir as Hb.
  unfold LocalPath, LocalPath_pattern, RepoPath_pattern, pathFromRoot,
    filepath.Join.
  set (te := target +:+ ExecutableExtension h (Platform (opt u))) in *.
  set (inner := [binDir; target; Platform (opt u); channel; te]).
  assert (Forall path.plain inner) as Hin by plain_elems.
  rewrite (Join_plain inner) by done.
  assert (path.join inner ≠ "") as Hi by (by apply join_nonempty).
  assert (path.join rs ≠ "") as Hr.
  { destruct rs as [|r rs]; [done|].
    apply Forall_cons in Hrs as [(? & _) _]. by apply join_nonempty. }
  assert (RootDirectory (opt u) ≠ "") as Hroot'.
  { rewrite Hroot. destruct rooted; [done|]. exact Hr. }
  unfold path.Join. rewrite !filter_cons_True, filter_nil by done.
  change (path.join [RootDirectory (opt u); path.join inner])
    with (RootDirectory (opt u) +:+ "/" +:+ path.join inner).
  assert (Forall path.plain (rs ++ inner)%list) as Hall by (by apply Forall_app).
  assert ((rs ++ inner)%list ≠ []) as Hne' by (by destruct rs).
  rewrite Hroot, append_assoc, <- join_app by done.
  destruct rooted.
  - change ("/" +:+ path.join (rs ++ inner)%list)
      with (String path.slash (path.join (rs ++ inner)%list)).
    rewrite Clean_plain_abs by done.
    rewrite join_app by done. reflexivity.
  - change ("" +:+ path.join (rs ++ inner)%list) with (path.join (rs ++ inner)%list).
    rewrite Clean_plain_rel by done.
    rewrite join_app by done. reflexivity.
Qed.




(** * The file system *)
Section OsFacts.
Import os.

Lemma IsDir_chmod (perm : Z) (nd : node) :
  IsDir (mode (chmod_node perm nd)) = IsDir (mode nd).
Proof.
  unfold IsDir, chmod_node; cbn [mode].
  rewrite Z.land_lor_distr_l, <- !Z.land_assoc.
  change (Z.land (Z.lnot ModePerm) ModeDir) with ModeDir.
  change (Z.land ModePerm ModeDir) with 0.
  by rewrite Z.land_0_r, Z.lor_0_r.
Qed.

Lemma IsRegular_chmod (perm : Z) (nd : node) :
  IsRegular (mode (chmod_node perm nd)) = IsRegular (mode nd).
Proof.
  unfold IsRegular, chmod_node; cbn [mode].
  rewrite Z.land_lor_distr_l, <- !Z.land_assoc.
  change (Z.land (Z.lnot ModePerm) ModeType) with ModeType.
  change (Z.land ModePerm ModeType) with 0.
  by rewrite Z.land_0_r, Z.lor_0_r.
Qed.

Lemma IsRegular_perm (perm : Z) : IsRegular (Z.land perm ModePerm) = true.
Proof.
  unfold IsRegular. rewrite <- Z.land_assoc.
  change (Z.land ModePerm ModeType) with 0. by rewrite Z.land_0_r.
Qed.

Lemma IsRegular_not_dir (m : Z) : IsRegular m = true → IsDir m = false.
Proof.
  unfold IsRegular, IsDir. intros H%Z.eqb_eq.
  change ModeDir with (Z.land ModeType ModeDir).
  by rewrite Z.land_assoc, H.
Qed.

Lemma IsDir_dir_node (perm : Z) : IsDir (mode (dir_node perm)) = true.
Proof.
  unfold IsDir, dir_node; cbn [mode].
  rewrite Z.land_lor_distr_l, <- Z.land_assoc.
  change (Z.land ModePerm ModeDir) with 0.
  by rewrite Z.land_0_r, Z.lor_0_r.
Qed.

Lemma same_files_refl (m : gmap string node) : same_files m m.
Proof. by intros p nd _. Qed.

Lemma same_files_trans (m1 m2 m3 : gmap string node) :
  same_files m1 m2 → same_files m2 m3 → same_files m1 m3.
Proof. intros H1 H2 p nd Hd. by rewrite (H1 p nd Hd), (H2 p nd Hd). Qed.

Lemma same_files_weaken (t : string) (m m' : gmap string node) :
  same_files m m' → same_files_except t m m'.
Proof. intros H p nd _ Hd. by apply H. Qed.

Lemma same_files_except_trans (t : string) (m1 m2 m3 : gmap string node) :
  same_files_except t m1 m2 → same_files_except t m2 m3 →
  same_files_except t m1 m3.
Proof. intros H1 H2 p nd Hp Hd. by rewrite (H1 p nd Hp Hd), (H2 p nd Hp Hd). Qed.

(** Putting a directory where there was none, or over a directory. *)
Lemma same_files_insert_dir (m : gmap string node) (d : string) (nd : node) :
  IsDir (mode nd) = true →
  (∀ old, m !! d = Some old → IsDir (mode old) = true) →
  same_files m (<[d := nd]> m).
Proof.
  intros Hnd Hold p x Hx. destruct (decide (d = p)) as [->|Hne].
  - rewrite lookup_insert_eq. split.
    + intros Hp. apply Hold in Hp. congruence.
    + intros [= ->]. congruence.
  - by rewrite lookup_insert_ne.
Qed.

Lemma same_files_except_insert (m : gmap string node) (t : string) (nd : node) :
  same_files_except t m (<[t := nd]> m).
Proof. intros p x Hp _. by rewrite lookup_insert_ne. Qed.

Lemma same_files_except_delete (m : gmap string node) (t : string) :
  same_files_except t m (delete t m).
Proof. intros p x Hp _. by rewrite lookup_delete_ne. Qed.

Lemma same_files_except_alter (m : gmap string node) (t : string) f :
  same_files_except t m (alter f t m).
Proof. intros p x Hp _. by rewrite lookup_alter_ne. Qed.

Lemma mkdirs_same_files (perm : Z) (ds : list string) (m m' : gmap string node) r :
  mkdirs perm ds m = (m', r) → same_files m m'.
Proof.
  revert m. induction ds as [|d ds IH]; intros m; cbn.
  - intros [= <- _]. apply same_files_refl.
  - destruct (m !! d) as [nd|] eqn:Hd.
    + destruct (IsDir (mode nd)); [apply IH|].
      intros [= <- _]. apply same_files_refl.
    + intros H%IH. eapply same_files_trans; [|exact H].
      apply same_files_insert_dir; [apply IsDir_dir_node|]. congruence.
Qed.

End OsFacts.

Section OsCalls.
Import os.
Context (h : Host).

Ltac run_call H :=
  unfold failing, throw, mret, M_ret in H; repeat case_match; simplify_eq.

Lemma Stat_pure (name : string) (w w' : World) r :
  Stat h name w = (w', r) → w' = w.
Proof. unfold Stat. intros H. by run_call H. Qed.

Lemma MkdirAll_spec (name : string) (perm : Z) (w w' : World) r :
  MkdirAll h name perm w = (w', r) →
  log w' = log w ∧ same_files (fs w) (fs w') ∧
  (r = inr () → ∃ nd, fs w' !! name = Some nd ∧ IsDir (mode nd) = true).
Proof.
  unfold MkdirAll. intros H. run_call H; cbn;
    try (split; [done|split; [by apply same_files_refl|]]; by eauto).
  - split; [done|]. split; [by eapply mkdirs_same_files|done].
  - split; [done|]. split; [by eapply mkdirs_same_files|done].
  - split; [done|]. split; [by eapply mkdirs_same_files|]. eauto.
  - split; [done|]. split; [by eapply mkdirs_same_files|done].
  - split; [done|]. split.
    + eapply same_files_trans; [by eapply mkdirs_same_files|].
      apply same_files_insert_dir; [apply IsDir_dir_node|congruence].
    + intros _. eexists. rewrite lookup_insert_eq. split; [done|].
      apply IsDir_dir_node.
Qed.

Lemma Chmod_spec (name : string) (perm : Z) (w w' : World) r :
  Chmod h name perm w = (w', r) →
  log w' = log w ∧
  match r with
  | inl _ => w' = w
  | inr _ => ∃ nd, fs w !! name = Some nd ∧
                   fs w' = <[name := chmod_node perm nd]> (fs w)
  end.
Proof. unfold Chmod. intros H. run_call H; cbn; eauto. Qed.

(** A chmod of a directory leaves the files as they are. *)
Lemma Chmod_dir_same_files (name : string) (perm : Z) (w w' : World) r nd :
  Chmod h name perm w = (w', r) →
  fs w !! name = Some nd → IsDir (mode nd) = true →
  log w' = log w ∧ same_files (fs w) (fs w').
Proof.
  intros H Hn Hd. apply Chmod_spec in H as [Hl H]. split; [done|].
  destruct r as [e|[]].
  - subst. apply same_files_refl.
  - destruct H as (nd' & Hn' & ->). simplify_eq.
    apply same_files_insert_dir; [by rewrite IsDir_chmod|congruence].
Qed.

(** [OpenFile] with the flags of [Download]: no truncation. *)
Lemma OpenFile_create_spec (name : string) (perm : Z) (w w' : World) r :
  OpenFile h name (Z.lor O_CREATE O_WRONLY) perm w = (w', r) →
  log w' = log w ∧
  match r with
  | inl _ => w' = w
  | inr t =>
      t = name ∧
      match fs w !! name with
      | Some nd => IsDir (mode nd) = false ∧ w' = w
      | None => fs w' = <[name := mkNode (Z.land perm ModePerm) []]> (fs w)
      end
  end.
Proof.
  unfold OpenFile. intros H.
  change (has_flag (Z.lor O_CREATE O_WRONLY) O_TRUNC) with false in H.
  change (has_flag (Z.lor O_CREATE O_WRONLY) O_CREATE) with true in H.
  run_call H; cbn; eauto.
Qed.

Lemma Rename_spec (a b : string) (w w' : World) r :
  Rename h a b w = (w', r) →
  log w' = log w ∧
  match r with
  | inl e => w' = w ∧ (errors.Is_NotExist e = true →
                       fs w !! a = None ∨ fault h (OpRename a b) = Some e)
  | inr _ => ∃ nd, fs w !! a = Some nd ∧
                   fs w' = <[b := nd]> (delete a (fs w)) ∧
                   ∀ tgt, fs w !! b = Some tgt →
                          IsDir (mode tgt) = IsDir (mode nd)
  end.
Proof.
  unfold Rename. intros H. run_call H; cbn; split; try done; eauto.
  - eexists. split; [done|]. split; [done|]. intros tgt [= <-].
    by apply Bool.eqb_prop.
  - eexists. split; [done|]. split; [done|]. done.
Qed.

Lemma File_Close_pure (name : string) (w w' : World) r :
  File_Close h name w = (w', r) → w' = w.
Proof. unfold File_Close. intros H. by run_call H. Qed.

End OsCalls.

(** * The steps of [Download] *)
Section Phases.
Import os.
Context (u : Updater) (h : Host).

Lemma wrap_inv {A} (msg : string) (m : M A) (w w' : World) r :
  wrap msg m w = (w', r) →
  ∃ r0, m w = (w', r0) ∧
        r = match r0 with inl e => inl (Wrap e msg) | inr a => inr a end.
Proof.
  unfold wrap. destruct (m w) as [w1 [e|a]]; intros [= <- <-]; eauto.
Qed.

Lemma fresh_file_not_dir (perm : Z) :
  IsDir (mode (mkNode (Z.land perm ModePerm) [])) = false.
Proof. apply IsRegular_not_dir, IsRegular_perm. Qed.

(** The directory is made and adjusted, then the staging file is opened:
    an old file at the staging path is kept as it is, a missing one is
    created empty with the executable mode. *)
Lemma openStaging_spec (localPath : string) (w w1 : World) r :
  openStaging u h localPath w = (w1, r) →
  log w1 = log w ∧
  match r with
  | inl _ => same_files (fs w) (fs w1)
  | inr t =>
      t = stagingPath u localPath ∧
      same_files_except t (fs w) (fs w1) ∧
      ∃ nd1, fs w1 !! t = Some nd1 ∧ IsDir (mode nd1) = false ∧
        (∀ nd0, fs w !! t = Some nd0 → IsDir (mode nd0) = false → nd1 = nd0) ∧
        (fs w !! t = None →
         nd1 = mkNode (Z.land (DefaultExecutableMode h) ModePerm) [])
  end.
Proof.
  unfold openStaging, stagingPath, mbind, M_bind.
  set (staging := filepath.Join [RootDirectory (opt u); stagingDir]).
  set (t := filepath.Join [staging; filepath.Base localPath]).
  destruct (wrap _ (MkdirAll h staging _) w) as [wa ra] eqn:Ha.
  apply wrap_inv in Ha as (ra0 & Ha & ->).
  apply MkdirAll_spec in Ha as (Hla & Hsa & Hda).
  destruct ra0 as [e|[]]; [by intros [= <- <-]|].
  destruct (Hda eq_refl) as (nd & Hnd & Hdir).
  destruct (platform.ChmodExecutableDirectory h staging wa) as [wb rb] eqn:Hb.
  unfold platform.ChmodExecutableDirectory in Hb.
  apply wrap_inv in Hb as (rb0 & Hb & ->).
  eapply Chmod_dir_same_files in Hb as [Hlb Hsb]; [|done..].
  assert (same_files (fs w) (fs wb)) as Hs by (by eapply same_files_trans).
  destruct rb0 as [e|[]].
  { intros [= <- <-]. split; [congruence|done]. }
  intros (rc & Hc & ->)%wrap_inv.
  apply OpenFile_create_spec in Hc as [Hlc Hc].
  destruct rc as [e|t']; [subst; split; [congruence|done]|].
  destruct Hc as [-> Hc]. split; [congruence|]. split; [done|].
  destruct (fs wb !! t) as [nd1|] eqn:Ht.
  - destruct Hc as [Hd ->]. split; [by apply same_files_weaken|].
    exists nd1. split; [done|]. split; [done|]. split.
    + intros nd0 H0 Hd0. apply (Hs t nd0 Hd0) in H0. congruence.
    + intros H0. apply (Hs t nd1 Hd) in Ht. congruence.
  - split.
    { eapply same_files_except_trans; [by apply same_files_weaken|].
      rewrite Hc. apply same_files_except_insert. }
    eexists. rewrite Hc, lookup_insert_eq. split; [done|].
    split; [apply fresh_file_not_dir|]. split; [|done].
    intros nd0 H0 Hd0. apply (Hs t nd0 Hd0) in H0. congruence.
Qed.

(** Until the transfer is closed only the staging file changes; when it
    is closed without error, the staging file holds the bytes the client
    delivered, written over what it held. *)
Lemma fillStaging_spec (repoPath localPath t : string) (w1 w2 : World) r nd1 :
  fillStaging u h repoPath localPath t w1 = (w2, r) →
  fs w1 !! t = Some nd1 → IsDir (mode nd1) = false →
  same_files_except t (fs w1) (fs w2) ∧
  (log w2 = log w1 ∨ log w2 = EvFetch repoPath :: log w1) ∧
  (r = inr () →
   ∃ bytes, client.remote (client u) repoPath = inr bytes ∧
     log w2 = EvFetch repoPath :: log w1 ∧
     fs w2 !! t =
       Some (mkNode (mode (chmod_node (DefaultExecutableMode h) nd1))
                    (write_over bytes (data nd1)))).
Proof.
  intros H Ht Hd. unfold fillStaging, mbind, M_bind in H.
  destruct (wrap _ (platform.ChmodExecutable h t) w1) as [wa ra] eqn:Ha.
  apply wrap_inv in Ha as (ra0 & Ha & ->).
  unfold platform.ChmodExecutable in Ha.
  apply wrap_inv in Ha as (ra1 & Ha & ->).
  apply Chmod_spec in Ha as [Hla Ha].
  destruct ra1 as [e|[]].
  { subst wa. injection H as <- <-.
    split; [by apply same_files_weaken, same_files_refl|]. split; [by left|done]. }
  destruct Ha as (nd' & Hnd' & Hfa).
  rewrite Ht in Hnd'. injection Hnd' as <-.
  set (nda := chmod_node (DefaultExecutableMode h) nd1) in *.
  assert (IsDir (mode nda) = false) as Hda by (by unfold nda; rewrite IsDir_chmod).
  assert (same_files_except t (fs w1) (fs wa)) as Hsa
    by (rewrite Hfa; apply same_files_except_insert).
  assert (fs wa !! t = Some nda) as Hta by (by rewrite Hfa, lookup_insert_eq).
  destruct (wrap _ (MkdirAll h (filepath.Dir localPath) _) wa) as [wb rb] eqn:Hb.
  apply wrap_inv in Hb as (rb0 & Hb & ->).
  apply MkdirAll_spec in Hb as (Hlb & Hsb & Hdb).
  destruct rb0 as [e|[]].
  { injection H as <- <-. split.
    - eapply same_files_except_trans; [done|by apply same_files_weaken].
    - split; [left; congruence|done]. }
  destruct (Hdb eq_refl) as (ndd & Hndd & Hdir).
  destruct (platform.ChmodExecutableDirectory h _ wb) as [wc rc] eqn:Hc.
  unfold platform.ChmodExecutableDirectory in Hc.
  apply wrap_inv in Hc as (rc0 & Hc & ->).
  eapply Chmod_dir_same_files in Hc as [Hlc Hsc]; [|done..].
  assert (same_files (fs wa) (fs wc)) as Hac by (by eapply same_files_trans).
  assert (same_files_except t (fs w1) (fs wc)) as H1c.
  { eapply same_files_except_trans; [done|by apply same_files_weaken]. }
  assert (fs wc !! t = Some nda) as Htc by (by apply (Hac t nda Hda)).
  destruct rc0 as [e|[]].
  { injection H as <- <-. split; [done|]. split; [left; congruence|done]. }
  destruct (wrap _ (client.Download _ _ _) wc) as [wd rd] eqn:Hdl.
  apply wrap_inv in Hdl as (rd0 & Hdl & ->).
  unfold client.Download in Hdl.
  assert (∀ bs, same_files_except t (fs w1)
                  (fs (File_Write t bs
                         {| fs := fs wc; log := EvFetch repoPath :: log wc |}))) as Hw.
  { intros bs. eapply same_files_except_trans; [done|].
    apply same_files_except_alter. }
  destruct (client.remote (client u) repoPath) as [[e part]|bytes] eqn:Hrem.
  { injection Hdl as <- <-. injection H as <- <-. split; [done|].
    split; [right; cbn; congruence|done]. }
  injection Hdl as <- <-.
  destruct (wrap _ (File_Close h t) _) as [we re] eqn:Hcl.
  apply wrap_inv in Hcl as (re0 & Hcl & ->).
  apply File_Close_pure in Hcl as ->.
  assert (r = match re0 with inl e => inl (Wrap e "close tmp file")
                           | inr a => inr a end ∧
          w2 = File_Write t bytes
                 {| fs := fs wc; log := EvFetch repoPath :: log wc |})
    as [-> ->] by (destruct re0 as [?|[]]; by injection H as <- <-).
  split; [done|]. split; [right; cbn; congruence|].
  intros _. exists bytes. split; [done|]. split; [cbn; congruence|].
  cbn. by rewrite lookup_alter_eq, Htc.
Qed.


(** The smoke test runs the staging file when the platforms agree, and
    does nothing at all when they differ. *)
Lemma smokeTest_spec (t : string) (w2 w3 : World) r :
  smokeTest u h t w2 = (w3, r) →
  fs w3 = fs w2 ∧
  (Platform (opt u) ≠ PlatformName h → w3 = w2 ∧ r = inr ()) ∧
  (Platform (opt u) = PlatformName h →
   log w3 = EvExec t "--version" :: log w2 ∧
   ∀ nd, fs w2 !! t = Some nd →
     r = match run h (data nd) "--version" with
         | (out, Some e) => inl (Wrap e ("exec new version: " +:+ out))
         | (_, None) => inr ()
         end).
Proof.
  unfold smokeTest, exec.CombinedOutput. case_decide as Hp.
  - intros H.
    assert (fs w3 = fs w2 ∧ log w3 = EvExec t "--version" :: log w2) as [Hf Hl].
    { repeat case_match; simplify_eq; done. }
    split; [done|]. split; [done|]. intros _. split; [done|].
    intros nd Hnd. rewrite Hnd in H.
    destruct (run h (data nd) "--version") as [out [e|]]; by simplify_eq.
  - intros [= <- <-]. done.
Qed.

(** The publish step. *)
Lemma publish_spec (localPath t : string) (w3 w4 : World) r :
  publish h localPath t w3 = (w4, r) →
  log w4 = log w3 ∧
  match r with
  | inl e =>
      (w4 = w3 ∧ ∃ c, e = Wrap c "move download" ∨ e = Wrap c "rename old") ∨
      (PlatformName h = "windows" ∧ ∃ c, e = Wrap c "move download")
  | inr _ =>
      ∃ mid nd, mid !! t = Some nd ∧
        fs w4 = <[localPath := nd]> (delete t mid) ∧
        (mid = fs w3 ∧
         (PlatformName h = "windows" →
          fs w3 !! localPath = None ∨
          ∃ e, fault h (OpRename localPath (localPath +:+ ".old")) = Some e ∧
               errors.Is_NotExist e = true)
         ∨
         PlatformName h = "windows" ∧
         ∃ old, fs w3 !! localPath = Some old ∧
                mid = <[localPath +:+ ".old" := old]> (delete localPath (fs w3)))
  end.
Proof.
  unfold publish, mbind, M_bind. case_decide as Hw.
  - destruct (Rename h localPath _ w3) as [wa ra] eqn:Ha.
    apply Rename_spec in Ha as [Hla Ha].
    destruct ra as [e|[]].
    + destruct Ha as [-> Hne].
      destruct (errors.Is_NotExist e) eqn:He; cbn.
      * intros (rb & Hb & ->)%wrap_inv. apply Rename_spec in Hb as [Hlb Hb].
        split; [done|]. destruct rb as [e'|[]].
        { destruct Hb as [-> _]. left. eauto. }
        destruct Hb as (nd & Hnd & Hf & _). exists (fs w3), nd.
        split; [done|]. split; [done|]. left. split; [done|].
        intros _. destruct (Hne eq_refl); eauto.
      * intros [= <- <-]. split; [done|]. left. eauto.
    + destruct Ha as (old & Hold & Hfa & _).
      intros (rb & Hb & ->)%wrap_inv. apply Rename_spec in Hb as [Hlb Hb].
      split; [congruence|]. destruct rb as [e'|[]].
      { right. eauto. }
      destruct Hb as (nd & Hnd & Hf & _). exists (fs wa), nd.
      split; [done|]. split; [done|]. right. split; [done|].
      exists old. by rewrite Hfa.
  - unfold mret, M_ret. intros (rb & Hb & ->)%wrap_inv.
    apply Rename_spec in Hb as [Hlb Hb]. split; [done|].
    destruct rb as [e'|[]].
    { destruct Hb as [-> _]. left. eauto. }
    destruct Hb as (nd & Hnd & Hf & _). exists (fs w3), nd.
    split; [done|]. split; [done|]. left. split; [done|]. done.
Qed.

(** [Download], one step at a time. *)
Lemma Download_unfold (repoPath localPath : string) (w : World) :
  Download u h repoPath localPath w =
    match openStaging u h localPath (entered repoPath localPath w) with
    | (w1, inl e) => (w1, inl e)
    | (w1, inr t) =>
        match fillStaging u h repoPath localPath t w1 with
        | (w2, inl e) => (cleanup t w2, inl e)
        | (w2, inr _) =>
            match smokeTest u h t w2 with
            | (w3, inl e) => (cleanup t w3, inl e)
            | (w3, inr _) =>
                let '(w4, r) := publish h localPath t w3 in (cleanup t w4, r)
            end
        end
    end.
Proof.
  unfold Download, mbind, M_bind, trace, defer, entered.
  destruct (openStaging _ _ _ _) as [w1 [e|t]]; [done|].
  destruct (fillStaging _ _ _ _ _ _) as [w2 [e|[]]]; [done|].
  destruct (smokeTest _ _ _ _) as [w3 [e|[]]]; [done|].
  by destruct (publish _ _ _ _) as [w4 r].
Qed.

End Phases.

(** * [Download] as a whole *)
Section DownloadFacts.
Import os.
Context (u : Updater) (h : Host).

Lemma write_over_nil (bytes : list Byte.byte) : write_over bytes [] = bytes.
Proof. unfold write_over. by rewrite drop_nil, app_nil_r. Qed.

(** What the world looks like when the publish step is reached. *)
Lemma staged_spec (repoPath localPath : string) (w w3 : World) :
  staged u h repoPath localPath w w3 →
  let t := stagingPath u localPath in
  same_files_except t (fs w) (fs w3) ∧
  (log w3 = EvFetch repoPath :: EvDownload repoPath localPath :: log w ∧
   Platform (opt u) ≠ PlatformName h
   ∨
   log w3 = EvExec t "--version" :: EvFetch repoPath
              :: EvDownload repoPath localPath :: log w ∧
   Platform (opt u) = PlatformName h) ∧
  ∃ bytes nd1,
    client.remote (client u) repoPath = inr bytes ∧
    IsDir (mode nd1) = false ∧
    (∀ nd0, fs w !! t = Some nd0 → IsDir (mode nd0) = false → nd1 = nd0) ∧
    (fs w !! t = None →
     nd1 = mkNode (Z.land (DefaultExecutableMode h) ModePerm) []) ∧
    fs w3 !! t = Some (mkNode (mode (chmod_node (DefaultExecutableMode h) nd1))
                              (write_over bytes (data nd1))).
Proof.
  intros (w2 & (w1 & Ho & Hf) & Hs) t.
  apply openStaging_spec in Ho as (Hl1 & _ & Hs1 & nd1 & Hnd1 & Hd1 & Hold & Hnew).
  eapply fillStaging_spec in Hf as (Hs2 & _ & Hf); [|done..].
  destruct (Hf eq_refl) as (bytes & Hrem & Hl2 & Ht2).
  apply smokeTest_spec in Hs as (Hfs & Hne & Heq).
  split; [rewrite Hfs; by eapply same_files_except_trans|].
  split.
  - destruct (decide (Platform (opt u) = PlatformName h)) as [Hp|Hp].
    + right. destruct (Heq Hp) as [-> _]. by rewrite Hl2, Hl1.
    + left. destruct (Hne Hp) as [-> _]. by rewrite Hl2, Hl1.
  - exists bytes, nd1. rewrite Hfs. done.
Qed.

Lemma Download_staged (repoPath localPath : string) (w w3 : World) :
  staged u h repoPath localPath w w3 →
  Download u h repoPath localPath w =
    let '(w4, r) := publish h localPath (stagingPath u localPath) w3 in
    (cleanup (stagingPath u localPath) w4, r).
Proof.
  intros (w2 & (w1 & Ho & Hf) & Hs).
  by rewrite Download_unfold, Ho, Hf, Hs.
Qed.

Lemma Download_success_staged (repoPath localPath : string) (w w' : World) :
  Download u h repoPath localPath w = (w', inr ()) →
  ∃ w3 w4, staged u h repoPath localPath w w3 ∧
    publish h localPath (stagingPath u localPath) w3 = (w4, inr ()) ∧
    w' = cleanup (stagingPath u localPath) w4.
Proof.
  rewrite Download_unfold.
  destruct (openStaging _ _ _ _) as [w1 [e|t]] eqn:Ho; [done|].
  pose proof Ho as Ho'.
  apply openStaging_spec in Ho' as (_ & -> & _).
  destruct (fillStaging _ _ _ _ _ _) as [w2 [e|[]]] eqn:Hf; [done|].
  destruct (smokeTest _ _ _ _) as [w3 [e|[]]] eqn:Hs; [done|].
  destruct (publish _ _ _ _) as [w4 [e|[]]] eqn:Hp; [done|].
  intros [= <-]. exists w3, w4. split; [|done].
  exists w2. split; [|done]. by exists w1.
Qed.

(** The trace of one [Download]: the call, at most one fetch, and the
    smoke test only on the platform of the target; no metadata lookup. *)
Lemma Download_log (repoPath localPath : string) (w w' : World) r :
  Download u h repoPath localPath w = (w', r) →
  let t := stagingPath u localPath in
  log w' = EvDownload repoPath localPath :: log w ∨
  log w' = EvFetch repoPath :: EvDownload repoPath localPath :: log w ∨
  Platform (opt u) = PlatformName h ∧
  log w' = EvExec t "--version" :: EvFetch repoPath
             :: EvDownload repoPath localPath :: log w.
Proof.
  rewrite Download_unfold.
  destruct (openStaging _ _ _ _) as [w1 [e|t]] eqn:Ho.
  { apply openStaging_spec in Ho as [Hl _]. intros [= <- <-]. by left. }
  apply openStaging_spec in Ho as (Hl1 & -> & _ & nd1 & Hnd1 & Hd1 & _).
  destruct (fillStaging _ _ _ _ _ _) as [w2 r2] eqn:Hf.
  eapply fillStaging_spec in Hf as (_ & Hl2 & Hok); [|done..].
  destruct r2 as [e|[]].
  { intros [= <- <-]. cbn. destruct Hl2 as [->| ->]; rewrite Hl1; auto. }
  destruct (Hok eq_refl) as (_ & _ & Hl2'' & _). clear Hl2.
  destruct (smokeTest _ _ _) as [w3 r3] eqn:Hs.
  apply smokeTest_spec in Hs as (_ & Hne & Heq).
  assert (log w3 = log w2 ∨
          Platform (opt u) = PlatformName h ∧
          log w3 = EvExec (stagingPath u localPath) "--version" :: log w2) as Hl3.
  { destruct (decide (Platform (opt u) = PlatformName h)) as [Hp|Hp].
    - right. split; [done|]. by destruct (Heq Hp).
    - left. by destruct (Hne Hp) as [-> _]. }
  assert (∀ w4, log w4 = log w3 →
    log (cleanup (stagingPath u localPath) w4)
      = EvDownload repoPath localPath :: log w
    ∨ log (cleanup (stagingPath u localPath) w4)
      = EvFetch repoPath :: EvDownload repoPath localPath :: log w
    ∨ Platform (opt u) = PlatformName h ∧
      log (cleanup (stagingPath u localPath) w4)
      = EvExec (stagingPath u localPath) "--version" :: EvFetch repoPath
          :: EvDownload repoPath localPath :: log w) as Hend.
  { intros w4 H4. cbn. rewrite H4.
    destruct Hl3 as [->|[Hp ->]]; rewrite Hl2'', Hl1; cbn; auto. }
  destruct r3 as [e|[]].
  { intros [= <- <-]. by apply Hend. }
  destruct (publish _ _ _ _) as [w4 r4] eqn:Hp.
  apply publish_spec in Hp as [Hl4 _].
  intros [= <- <-]. by apply Hend.
Qed.

(** A failed [Download]: either nothing but directories changed, or the
    staging file was opened and is gone and nothing else but directories
    changed. *)
Lemma Download_failure_frame (repoPath localPath : string) (w w' : World) e :
  Download u h repoPath localPath w = (w', inl e) →
  PlatformName h ≠ "windows" ∨ (∀ c, e ≠ Wrap c "move download") →
  let t := stagingPath u localPath in
  (same_files (fs w) (fs w') ∧
   ∃ w1 e1, openStaging u h localPath (entered repoPath localPath w)
            = (w1, inl e1))
  ∨ (same_files_except t (fs w) (fs w') ∧ fs w' !! t = None).
Proof.
  rewrite Download_unfold. intros H Hcase t.
  destruct (openStaging _ _ _ _) as [w1 [e1|t']] eqn:Ho.
  { left. injection H as <- <-. split; [|by eauto].
    by apply openStaging_spec in Ho as [_ Hs]. }
  right.
  apply openStaging_spec in Ho as (_ & -> & Hs1 & nd1 & Hnd1 & Hd1 & _).
  fold t in H, Hs1, Hnd1.
  assert (∀ wx, same_files_except t (fs w1) (fs wx) →
            same_files_except t (fs w) (fs (cleanup t wx)) ∧
            fs (cleanup t wx) !! t = None) as Hend.
  { intros wx Hx. cbn. split; [|by rewrite lookup_delete_eq].
    eapply same_files_except_trans; [done|].
    eapply same_files_except_trans; [done|].
    apply same_files_except_delete. }
  destruct (fillStaging _ _ _ _ _ _) as [w2 r2] eqn:Hf.
  eapply fillStaging_spec in Hf as (Hs2 & _); [|done..].
  destruct r2 as [e2|[]]; [injection H as <- <-; by apply Hend|].
  destruct (smokeTest _ _ _) as [w3 r3] eqn:Hsm.
  apply smokeTest_spec in Hsm as (Hfs3 & _).
  rewrite <- Hfs3 in Hs2.
  destruct r3 as [e3|[]]; [injection H as <- <-; by apply Hend|].
  destruct (publish _ _ _ _) as [w4 r4] eqn:Hp.
  apply publish_spec in Hp as [_ Hp]. injection H as <- ->.
  destruct Hp as [[-> _]|[Hwin [c ->]]]; [by apply Hend|].
  destruct Hcase as [Hc|Hc]; [done|]. by destruct (Hc c).
Qed.

End DownloadFacts.

(** * [Get] *)

Lemma LocalPath_nonempty (u : Updater) (h : Host) (target channel : string) :
  LocalPath u h target channel ≠ "".
Proof.
  unfold LocalPath, pathFromRoot, filepath.Join.
  set (inner := path.Join (binDir :: _)).
  assert (inner ≠ "") as Hi by (by apply Join_nonempty).
  unfold path.Join.
  destruct (decide (RootDirectory (opt u) = "")) as [->|Hr].
  - rewrite filter_cons_False by (intros H; by apply H).
    rewrite filter_cons_True by done. apply Clean_nonempty.
  - rewrite filter_cons_True by done. apply Clean_nonempty.
Qed.

(** C7. When the local path exists and is not a regular file, [Get]
    fails with an error and empty path, and the world is as before: no
    call of [Download] is on the trace and no entry has changed. *)
Theorem Get_rejects_non_regular (u : Updater) (h : Host)
    (target channel : string) (w : World) (m : Z) :
  os.Stat h (LocalPath u h target channel) w = (w, inr m) →
  os.IsRegular m = false →
  ∃ e, Get u h target channel w = (w, ("", Some e)).
Proof.
  intros Hs Hm. unfold Get.
  repeat case_decide; [by eauto..|].
  rewrite Hs, Hm. cbn. eauto.
Qed.

Lemma Get_rejects_non_regular_witness :
  ∃ e, Get Ex.updater Ex.linux "orbit" "stable"
         (mkWorld {[ Ex.local := mkNode (Z.lor os.ModeDir 493) [] ]} [])
       = (mkWorld {[ Ex.local := mkNode (Z.lor os.ModeDir 493) [] ]} [],
          ("", Some e)).
Proof.
  apply (Get_rejects_non_regular Ex.updater Ex.linux "orbit" "stable" _
           (Z.lor os.ModeDir 493)); reflexivity.
Defined.

(** C8. When target and channel are not empty and stat of the local path
    fails, [Get] is [Download] run in the very world [Get] was called in
    (nothing was looked up before), and returns the local path with the
    error of [Download]; [Download] itself looks no metadata up. *)
Theorem Get_stat_failure_downloads (u : Updater) (h : Host)
    (target channel : string) (w : World) (e : error) :
  target ≠ "" → channel ≠ "" →
  os.Stat h (LocalPath u h target channel) w = (w, inl e) →
  ∃ w' r,
    Download u h (RepoPath u h target channel) (LocalPath u h target channel) w
      = (w', r) ∧
    Get u h target channel w
      = (w', (LocalPath u h target channel, err_of r)) ∧
    count is_lookup (log w') = count is_lookup (log w).
Proof.
  intros Ht Hc Hs. unfold Get. rewrite !decide_False by done.
  rewrite Hs.
  destruct (Download _ _ _ _ _) as [w' r] eqn:Hd.
  exists w', r. split; [done|]. split; [done|].
  apply Download_log in Hd as [-> | [-> | [_ ->]]]; reflexivity.
Qed.

Lemma Get_stat_failure_downloads_witness :
  ∃ w' r,
    Download Ex.updater Ex.linux
      (RepoPath Ex.updater Ex.linux "orbit" "stable")
      (LocalPath Ex.updater Ex.linux "orbit" "stable") Ex.empty = (w', r) ∧
    Get Ex.updater Ex.linux "orbit" "stable" Ex.empty
      = (w', (LocalPath Ex.updater Ex.linux "orbit" "stable", err_of r)) ∧
    count is_lookup (log w') = count is_lookup (log Ex.empty).
Proof.
  apply (Get_stat_failure_downloads Ex.updater Ex.linux "orbit" "stable"
           Ex.empty ErrNotExist); [discriminate | discriminate |].
  vm_compute. reflexivity.
Defined.

(** C10. With target and channel not empty: when [Get] downloads because
    stat failed or because the hash does not match, and the download
    fails, it returns the local path, which is not empty, with the error;
    when the metadata lookup fails it returns the empty path with the
    error. *)
Theorem Get_error_results (u : Updater) (h : Host)
    (target channel : string) (w : World) :
  target ≠ "" → channel ≠ "" →
  let localPath := LocalPath u h target channel in
  let repoPath := RepoPath u h target channel in
  localPath ≠ "" ∧
  (∀ e0 w' e,
     os.Stat h localPath w = (w, inl e0) →
     Download u h repoPath localPath w = (w', inl e) →
     Get u h target channel w = (w', (localPath, Some e))) ∧
  (∀ m meta wl e1 w' e,
     os.Stat h localPath w = (w, inr m) → os.IsRegular m = true →
     Lookup u h target channel w = (wl, inr meta) →
     CheckFileHash h meta localPath wl = (wl, inl e1) →
     Download u h repoPath localPath wl = (w', inl e) →
     Get u h target channel w = (w', (localPath, Some e))) ∧
  (∀ m wl e,
     os.Stat h localPath w = (w, inr m) → os.IsRegular m = true →
     Lookup u h target channel w = (wl, inl e) →
     Get u h target channel w = (wl, ("", Some e))).
Proof.
  intros Ht Hc localPath repoPath.
  split; [apply LocalPath_nonempty|].
  unfold Get. rewrite !decide_False by done. fold localPath repoPath.
  split; [|split].
  - intros e0 w' e Hs Hd. by rewrite Hs, Hd.
  - intros m meta wl e1 w' e Hs Hm Hl Hh Hd.
    by rewrite Hs, Hm, Hl, Hh, Hd.
  - intros m wl e Hs Hm Hl. by rewrite Hs, Hm, Hl.
Qed.

Lemma Get_error_results_witness :
  Get Ex.updater Ex.broken "orbit" "stable" Ex.empty
    = ((Download Ex.updater Ex.broken Ex.target Ex.local Ex.empty).1,
       (Ex.local,
        Some (Wrap (Errno "exit status 1")
                   "exec new version: exec format error")))
  ∧ Ex.local ≠ "".
Proof.
  destruct (Get_error_results Ex.updater Ex.broken "orbit" "stable" Ex.empty)
    as (Hne & Hstat & _ & _); [discriminate..|].
  split; [|exact Hne].
  apply (Hstat ErrNotExist); vm_compute; reflexivity.
Defined.

(** * Failure of [Download] *)

Lemma append_suffix_neq (s x : string) : x ≠ "" → s +:+ x ≠ s.
Proof.
  intros Hx. induction s as [|c s IH]; [done|].
  change (String c s +:+ x) with (String c (s +:+ x)). congruence.
Qed.

Section Failure.
Import os.
Context (u : Updater) (h : Host).

(** A publish step that fails has changed nothing, unless it is the
    final rename that fails on Windows after the first rename has moved
    the entry at [localPath] to [localPath].old. *)
Lemma publish_failure (localPath t : string) (w3 w4 : World) (e : error) :
  publish h localPath t w3 = (w4, inl e) →
  w4 = w3 ∨
  PlatformName h = "windows" ∧ (∃ c, e = Wrap c "move download") ∧
  ∃ old,
    Rename h localPath (localPath +:+ ".old") w3 = (w4, inr ()) ∧
    fs w3 !! localPath = Some old ∧
    fs w4 = <[localPath +:+ ".old" := old]> (delete localPath (fs w3)) ∧
    ∀ tgt, fs w3 !! (localPath +:+ ".old") = Some tgt →
           IsDir (mode tgt) = IsDir (mode old).
Proof.
  unfold publish, mbind, M_bind. case_decide as Hw.
  - destruct (Rename h localPath _ w3) as [wa ra] eqn:Ha.
    pose proof Ha as Ha'. apply Rename_spec in Ha' as [_ Ha'].
    destruct ra as [e0|[]].
    + destruct Ha' as [-> _].
      destruct (errors.Is_NotExist e0); cbn.
      * intros (rb & Hb & Hr)%wrap_inv. apply Rename_spec in Hb as [_ Hb].
        destruct rb as [e'|[]]; [|done]. destruct Hb as [-> _]. by left.
      * intros [= <- <-]. by left.
    + destruct Ha' as (old & Hold & Hfa & Hkind).
      intros (rb & Hb & Hr)%wrap_inv. apply Rename_spec in Hb as [_ Hb].
      destruct rb as [e'|[]]; [|done]. destruct Hb as [-> _].
      injection Hr as ->. right. split; [done|]. split; [by eauto|].
      exists old. done.
  - unfold mret, M_ret. intros (rb & Hb & Hr)%wrap_inv.
    apply Rename_spec in Hb as [_ Hb].
    destruct rb as [e'|[]]; [|done]. destruct Hb as [-> _]. by left.
Qed.

(** The three ways in which [Download] fails. *)
Lemma Download_failure_cases (repoPath localPath : string) (w w' : World)
    (e : error) :
  Download u h repoPath localPath w = (w', inl e) →
  let t := stagingPath u localPath in
  let oldPath := localPath +:+ ".old" in
  (* before the staging file is opened *)
  (same_files (fs w) (fs w') ∧
   ∃ w1 e1, openStaging u h localPath (entered repoPath localPath w)
            = (w1, inl e1))
  ∨
  (* after it, nothing having been moved *)
  (same_files_except t (fs w) (fs w') ∧ fs w' !! t = None ∧
   ∃ w1, openStaging u h localPath (entered repoPath localPath w)
         = (w1, inr t))
  ∨
  (* in the final rename on Windows, the first rename having moved the
     entry at [localPath] *)
  (PlatformName h = "windows" ∧ (∃ c, e = Wrap c "move download") ∧
   (∃ w1, openStaging u h localPath (entered repoPath localPath w)
          = (w1, inr t)) ∧
   ∃ w3 old,
     staged u h repoPath localPath w w3 ∧
     Rename h localPath oldPath w3
       = ({| fs := <[oldPath := old]> (delete localPath (fs w3));
             log := log w3 |}, inr ()) ∧
     same_files_except t (fs w) (fs w3) ∧
     fs w3 !! localPath = Some old ∧
     fs w' = delete t (<[oldPath := old]> (delete localPath (fs w3))) ∧
     ∀ tgt, fs w3 !! oldPath = Some tgt →
            IsDir (mode tgt) = IsDir (mode old)).
Proof.
  rewrite Download_unfold. intros H t oldPath.
  destruct (openStaging _ _ _ _) as [w1 [e1|t']] eqn:Ho.
  { left. injection H as <- <-. split; [|by eauto].
    by apply openStaging_spec in Ho as [_ Hs]. }
  right. pose proof Ho as Ho'.
  apply openStaging_spec in Ho' as (_ & -> & Hs1 & nd1 & Hnd1 & Hd1 & _).
  fold t in H, Hs1, Hnd1, Ho.
  assert (∀ wx, same_files_except t (fs w1) (fs wx) →
            same_files_except t (fs w) (fs (cleanup t wx)) ∧
            fs (cleanup t wx) !! t = None ∧
            ∃ w1' : World, (w1, @inr error string t) = (w1', inr t)) as Hend.
  { intros wx Hx. cbn. split; [|split; [by rewrite lookup_delete_eq|by eauto]].
    eapply same_files_except_trans; [done|].
    eapply same_files_except_trans; [done|].
    apply same_files_except_delete. }
  destruct (fillStaging _ _ _ _ _ _) as [w2 r2] eqn:Hf.
  pose proof Hf as Hf'.
  eapply fillStaging_spec in Hf' as (Hs2 & _); [|done..].
  destruct r2 as [e2|[]]; [left; injection H as <- <-; by apply Hend|].
  destruct (smokeTest _ _ _) as [w3 r3] eqn:Hsm.
  pose proof Hsm as Hsm'.
  apply smokeTest_spec in Hsm' as (Hfs3 & _).
  rewrite <- Hfs3 in Hs2.
  destruct r3 as [e3|[]]; [left; injection H as <- <-; by apply Hend|].
  destruct (publish _ _ _ _) as [w4 r4] eqn:Hp.
  injection H as <- ->.
  pose proof Hp as Hp'. apply publish_spec in Hp' as [Hl4 _].
  apply publish_failure in Hp
    as [-> | (Hwin & Hc & old & Hren & Hold & Hf4 & Hkind)];
    [left; by apply Hend|].
  right. split; [done|]. split; [done|]. split; [by eauto|].
  exists w3, old. split.
  { exists w2. split; [|done]. by exists w1. }
  split.
  { etrans; [exact Hren|]. f_equal. destruct w4 as [f4 l4].
    cbn in Hf4, Hl4. subst f4 l4. reflexivity. }
  split.
  { eapply same_files_except_trans; [done|]. done. }
  split; [done|]. split; [cbn; by rewrite Hf4|done].
Qed.

End Failure.

(** C1, as the code has it.  For a [Download] that fails:
    - when it fails before the staging file is opened, no file (entry
      other than a directory) is changed, added or removed: a file
      already at the staging path stays;
    - once the staging file had been opened, nothing is at the staging
      path afterwards;
    - on a platform other than Windows, or when the failure is not that
      of the final rename, or when the first rename of the publish step
      (of [localPath] to [localPath].old) has not succeeded, every file
      present afterwards was there before with the same mode and bytes,
      and every file other than the one at the staging path is still
      there unchanged, the one at [localPath] among them;
    - on Windows, when the first rename of the publish step has moved a
      file (not a directory) at [localPath] away, so that it is the
      final rename that fails, nothing is at [localPath], that file,
      which is the one [localPath] held before the call, is at
      [localPath].old, and every file at another path than these two and
      the staging path is unchanged. *)
Theorem Download_failure_leaves_files (u : Updater) (h : Host)
    (repoPath localPath : string) (w w' : World) (e : error) :
  Download u h repoPath localPath w = (w', inl e) →
  let t := stagingPath u localPath in
  let oldPath := localPath +:+ ".old" in
  (∀ w1 e1,
     openStaging u h localPath (entered repoPath localPath w) = (w1, inl e1) →
     same_files (fs w) (fs w')) ∧
  (∀ w1,
     openStaging u h localPath (entered repoPath localPath w) = (w1, inr t) →
     fs w' !! t = None) ∧
  (PlatformName h ≠ "windows" ∨ (∀ c, e ≠ Wrap c "move download") ∨
   (∀ w3 wa, staged u h repoPath localPath w w3 →
             os.Rename h localPath oldPath w3 ≠ (wa, inr ())) →
   (∀ p nd, os.IsDir (mode nd) = false →
            fs w' !! p = Some nd → fs w !! p = Some nd) ∧
   (∀ p nd, p ≠ t → os.IsDir (mode nd) = false →
            fs w !! p = Some nd → fs w' !! p = Some nd)) ∧
  (∀ w3 wa,
     PlatformName h = "windows" →
     staged u h repoPath localPath w w3 →
     os.Rename h localPath oldPath w3 = (wa, inr ()) →
     ∃ old,
       fs w3 !! localPath = Some old ∧
       (os.IsDir (mode old) = false →
        (t ≠ localPath → fs w !! localPath = Some old) ∧
        fs w' !! localPath = None ∧
        (t ≠ oldPath → fs w' !! oldPath = Some old) ∧
        (∀ p nd, p ≠ t → p ≠ localPath → p ≠ oldPath →
                 os.IsDir (mode nd) = false →
                 fs w !! p = Some nd ↔ fs w' !! p = Some nd))).
Proof.
  intros Hd t oldPath.
  assert (oldPath ≠ localPath) as Hol
    by (apply append_suffix_neq; discriminate).
  pose proof (Download_failure_cases _ _ _ _ _ _ _ Hd) as Hcases.
  cbv zeta in Hcases. fold t oldPath in Hcases.
  split; [|split; [|split]].
  - intros w1 e1 Ho.
    destruct Hcases
      as [[Hs _] | [(_ & _ & w1' & Ho') | (_ & _ & (w1' & Ho') & _)]];
      [done|congruence..].
  - intros w1 Ho.
    destruct Hcases
      as [(_ & w1' & e1 & Ho') | [(_ & Ht & _)
         | (_ & _ & _ & w3 & old & _ & _ & _ & _ & Hf & _)]];
      [congruence|done|].
    by rewrite Hf, lookup_delete_eq.
  - intros Hcase.
    destruct Hcases
      as [[Hs _] | [(Hs & Ht & _)
         | (Hwin & [c Hc] & _ & w3 & old & Hst & Hren & _)]].
    + split; intros p nd; [|intros _]; intros Hnd Hp; by apply (Hs p nd Hnd).
    + split.
      * intros p nd Hnd Hp. destruct (decide (p = t)) as [Hpt|Hne];
          [congruence|].
        by apply (Hs p nd Hne Hnd).
      * intros p nd Hne Hnd Hp. by apply (Hs p nd Hne Hnd).
    + destruct Hcase as [Hnw | [Hnm | Hnone]]; [done|by destruct (Hnm c)|].
      by destruct (Hnone _ _ Hst Hren).
  - intros w3 wa Hwin Hst Hren.
    clear Hcases.
    pose proof (staged_spec _ _ _ _ _ _ Hst) as (Hs3 & _). fold t in Hs3.
    rewrite (Download_staged _ _ _ _ _ _ Hst) in Hd. fold t in Hd.
    destruct (publish h localPath t w3) as [w4 r4] eqn:Hp.
    injection Hd as <- ->.
    assert (w4 = wa) as ->.
    { unfold publish, mbind, M_bind in Hp. rewrite decide_True in Hp by done.
      fold oldPath in Hp. rewrite Hren in Hp.
      apply wrap_inv in Hp as (rb & Hb & Hr).
      apply Rename_spec in Hb as [_ Hb].
      destruct rb as [e'|[]]; [|done]. by destruct Hb as [-> _]. }
    apply Rename_spec in Hren as (_ & old & Hold & Hfa & _).
    exists old. split; [done|]. intros Hdold. split.
    { intros Hne. apply (Hs3 localPath old); [congruence|done|done]. }
    cbn. rewrite Hfa. split; [|split].
    + destruct (decide (localPath = t)) as [Hlt|Hne];
        [by rewrite Hlt, lookup_delete_eq|].
      rewrite lookup_delete_ne, lookup_insert_ne, lookup_delete_eq by done.
      done.
    + intros Hne. by rewrite lookup_delete_ne, lookup_insert_eq.
    + intros p nd Hpt Hpl Hpo Hnd.
      rewrite lookup_delete_ne, lookup_insert_ne, lookup_delete_ne by done.
      by apply Hs3.
Qed.

Lemma Download_failure_leaves_files_witness :
  (fs (Download Ex.updater Ex.broken Ex.target Ex.local (Ex.installed "old")).1
     !! Ex.local = Some (mkNode 493 (Ex.bytes "old"))
   ∧ fs (Download Ex.updater Ex.broken Ex.target Ex.local
           (Ex.installed "old")).1
       !! stagingPath Ex.updater Ex.local = None)
  ∧ same_files (fs (Ex.leftover "partial"))
      (fs (Download Ex.updater Ex.readonly Ex.target Ex.local
             (Ex.leftover "partial")).1)
  ∧ fs (Download Ex.updater Ex.locked Ex.target Ex.local
          (Ex.installed "old")).1 !! (Ex.local +:+ ".old")
    = Some (mkNode 493 (Ex.bytes "old"))
  ∧ fs (Download Ex.updater Ex.locked Ex.target Ex.local Ex.configured).1
      !! "/opt/orbit/osquery.flags" = Some (mkNode 420 (Ex.bytes "keep")).
Proof.
  split; [|split; [|split]].
  - assert (Download Ex.updater Ex.broken Ex.target Ex.local
              (Ex.installed "old")
            = ((Download Ex.updater Ex.broken Ex.target Ex.local
                  (Ex.installed "old")).1,
               inl (Wrap (Errno "exit status 1")
                         "exec new version: exec format error"))) as Hd
      by (vm_compute; reflexivity).
    destruct (Download_failure_leaves_files _ _ _ _ _ _ _ Hd)
      as (_ & Hgone & Hframe & _).
    destruct Hframe as [_ Hkeep]; [left; discriminate|].
    split.
    + apply Hkeep; [vm_compute; discriminate | reflexivity
                    | vm_compute; reflexivity].
    + apply (Hgone (openStaging Ex.updater Ex.broken Ex.local
                      (entered Ex.target Ex.local (Ex.installed "old"))).1).
      vm_compute. reflexivity.
  - assert (Download Ex.updater Ex.readonly Ex.target Ex.local
              (Ex.leftover "partial")
            = ((Download Ex.updater Ex.readonly Ex.target Ex.local
                  (Ex.leftover "partial")).1,
               inl (Wrap (Errno "EPERM") "chmod executable directory")))
      as Hd by (vm_compute; reflexivity).
    destruct (Download_failure_leaves_files _ _ _ _ _ _ _ Hd)
      as (Hearly & _).
    apply (Hearly (openStaging Ex.updater Ex.readonly Ex.local
                     (entered Ex.target Ex.local (Ex.leftover "partial"))).1
             (Wrap (Errno "EPERM") "chmod executable directory")).
    vm_compute. reflexivity.
  - assert (Download Ex.updater Ex.locked Ex.target Ex.local
              (Ex.installed "old")
            = ((Download Ex.updater Ex.locked Ex.target Ex.local
                  (Ex.installed "old")).1,
               inl (Wrap (Errno "EACCES") "move download"))) as Hd
      by (vm_compute; reflexivity).
    destruct (Download_failure_leaves_files _ _ _ _ _ _ _ Hd)
      as (_ & _ & _ & Hmoved).
    destruct (Hmoved
                (fillStaging Ex.updater Ex.locked Ex.target Ex.local
                   (stagingPath Ex.updater Ex.local)
                   (openStaging Ex.updater Ex.locked Ex.local
                      (entered Ex.target Ex.local (Ex.installed "old"))).1).1
                (os.Rename Ex.locked Ex.local (Ex.local +:+ ".old")
                   (fillStaging Ex.updater Ex.locked Ex.target Ex.local
                      (stagingPath Ex.updater Ex.local)
                      (openStaging Ex.updater Ex.locked Ex.local
                         (entered Ex.target Ex.local
                            (Ex.installed "old"))).1).1).1)
      as (old & Hold & Hrest).
    + reflexivity.
    + eexists. split.
      * exists (openStaging Ex.updater Ex.locked Ex.local
                  (entered Ex.target Ex.local (Ex.installed "old"))).1.
        split; vm_compute; reflexivity.
      * vm_compute. reflexivity.
    + vm_compute. reflexivity.
    + assert (Some old = Some (mkNode 493 (Ex.bytes "old"))) as Hx
        by (rewrite <- Hold; vm_compute; reflexivity).
      injection Hx as ->.
      destruct Hrest as (_ & _ & Hat & _); [reflexivity|].
      apply Hat. vm_compute. discriminate.
  - assert (Download Ex.updater Ex.locked Ex.target Ex.local Ex.configured
            = ((Download Ex.updater Ex.locked Ex.target Ex.local
                  Ex.configured).1,
               inl (Wrap (Errno "EACCES") "move download"))) as Hd
      by (vm_compute; reflexivity).
    destruct (Download_failure_leaves_files _ _ _ _ _ _ _ Hd)
      as (_ & _ & Hframe & _).
    destruct Hframe as [_ Hkeep].
    + right; right. intros w3 wa (w2 & (w1 & Ho & Hf) & Hs) Hr.
      assert (w1 = (openStaging Ex.updater Ex.locked Ex.local
                      (entered Ex.target Ex.local Ex.configured)).1)
        as -> by (rewrite Ho; reflexivity).
      assert (w2 = (fillStaging Ex.updater Ex.locked Ex.target Ex.local
                      (stagingPath Ex.updater Ex.local)
                      (openStaging Ex.updater Ex.locked Ex.local
                         (entered Ex.target Ex.local Ex.configured)).1).1)
        as -> by (rewrite Hf; reflexivity).
      assert (w3 = (smokeTest Ex.updater Ex.locked
                      (stagingPath Ex.updater Ex.local)
                      (fillStaging Ex.updater Ex.locked Ex.target Ex.local
                         (stagingPath Ex.updater Ex.local)
                         (openStaging Ex.updater Ex.locked Ex.local
                            (entered Ex.target Ex.local
                               Ex.configured)).1).1).1)
        as -> by (rewrite Hs; reflexivity).
      apply (f_equal snd) in Hr. vm_compute in Hr. discriminate.
    + apply Hkeep; [vm_compute; discriminate | reflexivity
                    | vm_compute; reflexivity].
Defined.

(** C1, as the spec states it, fails in two ways.  On Windows, when the
    final rename is refused after the old file has been moved away,
    [localPath] is left empty (the old bytes are at [localPath].old).
    And a failure before the staging file is opened leaves an old staging
    file where it was. *)
Lemma Download_failure_counterexample :
  ((Download Ex.updater Ex.locked Ex.target Ex.local (Ex.installed "old")).2
     = inl (Wrap (Errno "EACCES") "move download") ∧
   fs (Ex.installed "old") !! Ex.local = Some (mkNode 493 (Ex.bytes "old")) ∧
   fs (Download Ex.updater Ex.locked Ex.target Ex.local (Ex.installed "old")).1
     !! Ex.local = None ∧
   fs (Download Ex.updater Ex.locked Ex.target Ex.local (Ex.installed "old")).1
     !! (Ex.local +:+ ".old") = Some (mkNode 493 (Ex.bytes "old")))
  ∧
  ((Download Ex.updater Ex.readonly Ex.target Ex.local
      (Ex.leftover "partial")).2
     = inl (Wrap (Errno "EPERM") "chmod executable directory") ∧
   fs (Download Ex.updater Ex.readonly Ex.target Ex.local
         (Ex.leftover "partial")).1
     !! Ex.staged = Some (mkNode 384 (Ex.bytes "partial"))).
Proof. vm_compute. repeat split; reflexivity. Qed.

(** * Success of [Download] *)
Section Publishing.
Import os.
Context (u : Updater) (h : Host).

(** What the world looks like when the transfer is closed. *)
Lemma filled_spec (repoPath localPath : string) (w w2 : World) :
  filled u h repoPath localPath w w2 →
  let t := stagingPath u localPath in
  same_files_except t (fs w) (fs w2) ∧
  log w2 = EvFetch repoPath :: EvDownload repoPath localPath :: log w ∧
  ∃ bytes nd1,
    client.remote (client u) repoPath = inr bytes ∧
    IsDir (mode nd1) = false ∧
    (∀ nd0, fs w !! t = Some nd0 → IsDir (mode nd0) = false → nd1 = nd0) ∧
    (fs w !! t = None →
     nd1 = mkNode (Z.land (DefaultExecutableMode h) ModePerm) []) ∧
    fs w2 !! t = Some (mkNode (mode (chmod_node (DefaultExecutableMode h) nd1))
                              (write_over bytes (data nd1))).
Proof.
  intros (w1 & Ho & Hf) t.
  apply openStaging_spec in Ho as (Hl1 & _ & Hs1 & nd1 & Hnd1 & Hd1 & Hold & Hnew).
  eapply fillStaging_spec in Hf as (Hs2 & _ & Hf); [|done..].
  destruct (Hf eq_refl) as (bytes & Hrem & Hl2 & Ht2).
  split; [by eapply same_files_except_trans|].
  split; [by rewrite Hl2, Hl1|].
  by exists bytes, nd1.
Qed.

(** A publish step without error puts the staged entry at [localPath];
    on Windows the entry that was there is then at [localPath].old. *)
Lemma publish_installs (localPath t : string) (w3 w4 : World) (nd : node) :
  publish h localPath t w3 = (w4, inr ()) →
  fs w3 !! t = Some nd →
  t ≠ localPath →
  (PlatformName h = "windows" → t ≠ localPath +:+ ".old") →
  fs (cleanup t w4) !! localPath = Some nd ∧
  fs (cleanup t w4) !! t = None ∧
  (∀ old, PlatformName h = "windows" → faithful_rename h →
          fs w3 !! localPath = Some old →
          fs (cleanup t w4) !! (localPath +:+ ".old") = Some old).
Proof.
  intros Hp Ht Hne Hne'.
  apply publish_spec in Hp as (_ & mid & nd' & Hmid & Hf4 & Hcase).
  assert (localPath ≠ t) as Hne2 by congruence.
  assert (nd' = nd) as ->.
  { destruct Hcase as [[-> _] | (Hwin & old & Hold & ->)]; [congruence|].
    assert (localPath +:+ ".old" ≠ t) as Hne3
      by (intros E; by apply (Hne' Hwin)).
    rewrite lookup_insert_ne, lookup_delete_ne in Hmid by done. congruence. }
  cbn. rewrite Hf4. split; [|split].
  - by rewrite lookup_delete_ne, lookup_insert_eq.
  - by rewrite lookup_delete_eq.
  - intros old Hwin Hfaith Hold.
    assert (localPath +:+ ".old" ≠ localPath) as Hneq
      by (by apply append_suffix_neq).
    destruct Hcase as [[-> Hskip] | (_ & old' & Hold' & ->)].
    + destruct (Hskip Hwin) as [Hnone | (e & He & Hne0)]; [congruence|].
      apply Hfaith in He. congruence.
    + assert (t ≠ localPath +:+ ".old") as Hne3 by auto.
      rewrite lookup_delete_ne by done.
      rewrite lookup_insert_ne by done.
      rewrite lookup_delete_ne by done.
      rewrite lookup_insert_eq. congruence.
Qed.

End Publishing.

(** C2.  [Download] opens its staging file with [O_CREATE|O_WRONLY] and no
    [O_TRUNC]: with an old, longer file at the staging path, the download
    succeeds and what is published is the new bytes followed by the tail
    of the old ones, not the bytes the client delivered and verified. *)
Theorem Download_publishes_stale_tail :
  client.remote (client Ex.updater) Ex.target = inr (Ex.bytes "new") ∧
  Download Ex.updater Ex.linux Ex.target Ex.local (Ex.leftover "stale!!")
    = ((Download Ex.updater Ex.linux Ex.target Ex.local
          (Ex.leftover "stale!!")).1, inr ()) ∧
  fs (Download Ex.updater Ex.linux Ex.target Ex.local (Ex.leftover "stale!!")).1
    !! Ex.local = Some (mkNode 493 (Ex.bytes "newle!!")) ∧
  (CheckFileHash Ex.linux (data.mkMeta 3 {[ "sha256" := Ex.bytes "new" ]})
     Ex.local
     (Download Ex.updater Ex.linux Ex.target Ex.local
        (Ex.leftover "stale!!")).1).2
    = inl (Wrap (Errno "hash mismatch") "hash does not match").
Proof. vm_compute. repeat split; reflexivity. Qed.

(** * The smoke test *)

(** C5.  Where the steps before it have gone through, [Download] runs
    the staged binary with "--version" exactly when the configured
    platform is the running one.  For another platform nothing is ever
    run, the result of [Download] is that of the publish step whatever
    running the binary would give, and a publish step without error
    leaves the staged entry at [localPath].  On the running platform the
    run is on the trace; when it fails [Download] fails with its error
    and output, the staging file is gone, and every other file is as
    before. *)
Theorem smoke_test_on_matching_platform (u : Updater) (h : Host)
    (repoPath localPath : string) (w : World) :
  let t := stagingPath u localPath in
  (Platform (opt u) ≠ PlatformName h →
   (∀ w' r, Download u h repoPath localPath w = (w', r) →
            count is_exec (log w') = count is_exec (log w)) ∧
   (∀ w2, filled u h repoPath localPath w w2 →
          Download u h repoPath localPath w =
            let '(w4, r) := publish h localPath t w2 in (cleanup t w4, r)) ∧
   (∀ w2 w4 nd,
      filled u h repoPath localPath w w2 →
      fs w2 !! t = Some nd →
      publish h localPath t w2 = (w4, inr ()) →
      t ≠ localPath →
      (PlatformName h = "windows" → t ≠ localPath +:+ ".old") →
      Download u h repoPath localPath w = (cleanup t w4, inr ()) ∧
      fs (cleanup t w4) !! localPath = Some nd))
  ∧
  (Platform (opt u) = PlatformName h →
   ∀ w2, filled u h repoPath localPath w w2 →
     ∃ w' r nd,
       Download u h repoPath localPath w = (w', r) ∧
       fs w2 !! t = Some nd ∧
       log w' = EvExec t "--version" :: log w2 ∧
       (∀ out e, run h (data nd) "--version" = (out, Some e) →
          r = inl (Wrap e ("exec new version: " +:+ out)) ∧
          fs w' !! t = None ∧
          same_files_except t (fs w) (fs w'))).
Proof.
  intros t. split.
  - intros Hp.
    assert (∀ w2, filled u h repoPath localPath w w2 →
              staged u h repoPath localPath w w2) as Hst.
    { intros w2 Hf. exists w2. split; [done|].
      destruct (smokeTest u h (stagingPath u localPath) w2) as [w3 r] eqn:Hs.
      apply smokeTest_spec in Hs as (_ & Hne & _).
      by destruct (Hne Hp) as [-> ->]. }
    split; [|split].
    + intros w' r Hd.
      apply Download_log in Hd as [-> | [-> | [? _]]]; done.
    + intros w2 Hf. by apply Download_staged, Hst.
    + intros w2 w4 nd Hf Hnd Hpub Hne Hne'.
      rewrite (Download_staged _ _ _ _ _ _ (Hst _ Hf)). fold t. rewrite Hpub.
      split; [done|].
      by destruct (publish_installs h _ _ _ _ _ Hpub Hnd Hne Hne').
  - intros Hp w2 Hf.
    pose proof (filled_spec _ _ _ _ _ _ Hf)
      as (Hs2 & Hl2 & bytes & nd1 & _ & _ & _ & _ & Ht).
    fold t in Hs2, Ht.
    destruct Hf as (w1 & Ho & Hf).
    rewrite Download_unfold, Ho, Hf. fold t.
    destruct (smokeTest u h t w2) as [w3 r3] eqn:Hsm.
    apply smokeTest_spec in Hsm as (Hfs & _ & Heq).
    destruct (Heq Hp) as [Hl3 Hr3]. specialize (Hr3 _ Ht).
    destruct r3 as [e3|[]].
    + eexists _, _, _. split; [done|]. split; [exact Ht|].
      split; [done|]. intros out e Hrun. rewrite Hrun in Hr3.
      split; [done|]. cbn. rewrite lookup_delete_eq. split; [done|].
      eapply same_files_except_trans; [done|]. rewrite Hfs.
      apply same_files_except_delete.
    + destruct (publish h localPath t w3) as [w4 r4] eqn:Hpub.
      apply publish_spec in Hpub as [Hl4 _].
      eexists _, _, _. split; [done|]. split; [exact Ht|].
      split; [cbn; congruence|]. intros out e Hrun.
      by rewrite Hrun in Hr3.
Qed.

Lemma smoke_test_on_matching_platform_witness :
  (Download Ex.updater Ex.darwin Ex.target Ex.local Ex.empty
     = (cleanup (stagingPath Ex.updater Ex.local)
          (publish Ex.darwin Ex.local (stagingPath Ex.updater Ex.local)
             (fillStaging Ex.updater Ex.darwin Ex.target Ex.local
                (stagingPath Ex.updater Ex.local)
                (openStaging Ex.updater Ex.darwin Ex.local
                   (entered Ex.target Ex.local Ex.empty)).1).1).1,
        inr ()) ∧
   fs (cleanup (stagingPath Ex.updater Ex.local)
         (publish Ex.darwin Ex.local (stagingPath Ex.updater Ex.local)
            (fillStaging Ex.updater Ex.darwin Ex.target Ex.local
               (stagingPath Ex.updater Ex.local)
               (openStaging Ex.updater Ex.darwin Ex.local
                  (entered Ex.target Ex.local Ex.empty)).1).1).1)
     !! Ex.local = Some (mkNode 493 (Ex.bytes "new")))
  ∧
  (∃ w',
     Download Ex.updater Ex.broken Ex.target Ex.local Ex.empty
       = (w', inl (Wrap (Errno "exit status 1")
                        "exec new version: exec format error")) ∧
     fs w' !! stagingPath Ex.updater Ex.local = None).
Proof.
  split.
  - destruct (smoke_test_on_matching_platform Ex.updater Ex.darwin
                Ex.target Ex.local Ex.empty) as [Hskip _].
    destruct Hskip as (_ & _ & Hpub); [discriminate|].
    apply (Hpub (fillStaging Ex.updater Ex.darwin Ex.target Ex.local
                   (stagingPath Ex.updater Ex.local)
                   (openStaging Ex.updater Ex.darwin Ex.local
                      (entered Ex.target Ex.local Ex.empty)).1).1).
    + exists (openStaging Ex.updater Ex.darwin Ex.local
                (entered Ex.target Ex.local Ex.empty)).1.
      split; vm_compute; reflexivity.
    + vm_compute. reflexivity.
    + vm_compute. reflexivity.
    + vm_compute. discriminate.
    + discriminate.
  - destruct (smoke_test_on_matching_platform Ex.updater Ex.broken
                Ex.target Ex.local Ex.empty) as [_ Hrun].
    destruct (Hrun eq_refl
                (fillStaging Ex.updater Ex.broken Ex.target Ex.local
                   (stagingPath Ex.updater Ex.local)
                   (openStaging Ex.updater Ex.broken Ex.local
                      (entered Ex.target Ex.local Ex.empty)).1).1)
      as (w' & r & nd & Hd & Hnd & _ & Hfail).
    { exists (openStaging Ex.updater Ex.broken Ex.local
                (entered Ex.target Ex.local Ex.empty)).1.
      split; vm_compute; reflexivity. }
    assert (nd = mkNode 493 (Ex.bytes "new")) as ->.
    { assert (Some nd = Some (mkNode 493 (Ex.bytes "new"))) as Hx
        by (rewrite <- Hnd; vm_compute; reflexivity).
      by injection Hx. }
    destruct (Hfail "exec format error" (Errno "exit status 1") eq_refl)
      as (-> & Hgone & _).
    exists w'. split; [exact Hd|exact Hgone].
Defined.

(** * Publishing on Windows *)

(** C6.  On Windows, with the old binary at [localPath] and a file left
    at the staging path, [Download] returns without error; the old file
    is at [localPath].old, as the claim says, but [localPath] holds the
    delivered bytes followed by the tail of the leftover file, not the
    new verified content: the staging file is opened without truncation
    (see C2). *)
Theorem Download_windows_publishes_stale_tail :
  PlatformName Ex.windows = "windows" ∧
  client.remote (client Ex.updater) Ex.target = inr (Ex.bytes "new") ∧
  Download Ex.updater Ex.windows Ex.target Ex.local Ex.interrupted
    = ((Download Ex.updater Ex.windows Ex.target Ex.local
          Ex.interrupted).1, inr ()) ∧
  fs (Download Ex.updater Ex.windows Ex.target Ex.local Ex.interrupted).1
    !! (Ex.local +:+ ".old") = Some (mkNode 493 (Ex.bytes "old")) ∧
  fs (Download Ex.updater Ex.windows Ex.target Ex.local Ex.interrupted).1
    !! Ex.local = Some (mkNode 493 (Ex.bytes "newle!!")) ∧
  Ex.bytes "newle!!" ≠ Ex.bytes "new".
Proof. vm_compute. repeat split; (reflexivity || discriminate). Qed.

(** X16.  On Windows the publish step first renames [localPath] to
    [localPath].old and then the staging file to [localPath]; a
    "does not exist" error of the first rename is passed over, any other
    stops [Download] with that error; and after a [Download] without
    error the file that was at [localPath] is at [localPath].old and
    [localPath] holds the staged file: the bytes the client delivered
    when the staging path was free, and otherwise those bytes written
    over what the staging path held before. *)
Theorem Download_windows_publish (u : Updater) (h : Host)
    (repoPath localPath : string) (w : World) :
  PlatformName h = "windows" →
  let t := stagingPath u localPath in
  let oldPath := localPath +:+ ".old" in
  (∀ w3,
     publish h localPath t w3 =
       match os.Rename h localPath oldPath w3 with
       | (wa, inl err) =>
           if errors.Is_NotExist err
           then wrap "move download" (os.Rename h t localPath) wa
           else (wa, inl (Wrap err "rename old"))
       | (wa, inr _) => wrap "move download" (os.Rename h t localPath) wa
       end) ∧
  (∀ w3 wa err,
     staged u h repoPath localPath w w3 →
     os.Rename h localPath oldPath w3 = (wa, inl err) →
     errors.Is_NotExist err = false →
     wa = w3 ∧
     Download u h repoPath localPath w
       = (cleanup t w3, inl (Wrap err "rename old"))) ∧
  (∀ w' old,
     Download u h repoPath localPath w = (w', inr ()) →
     faithful_rename h →
     fs w !! localPath = Some old → os.IsDir (mode old) = false →
     t ≠ localPath → t ≠ oldPath →
     fs w' !! oldPath = Some old ∧
     ∃ bytes nd,
       client.remote (client u) repoPath = inr bytes ∧
       fs w' !! localPath = Some nd ∧
       (fs w !! t = None → data nd = bytes) ∧
       (∀ nd0, fs w !! t = Some nd0 → os.IsDir (mode nd0) = false →
               data nd = os.write_over bytes (data nd0))).
Proof.
  intros Hwin t oldPath.
  assert (∀ w3,
     publish h localPath t w3 =
       match os.Rename h localPath oldPath w3 with
       | (wa, inl err) =>
           if errors.Is_NotExist err
           then wrap "move download" (os.Rename h t localPath) wa
           else (wa, inl (Wrap err "rename old"))
       | (wa, inr _) => wrap "move download" (os.Rename h t localPath) wa
       end) as Hpub.
  { intros w3. unfold publish, mbind, M_bind. rewrite decide_True by done.
    fold oldPath. destruct (os.Rename h localPath oldPath w3) as [wa [err|[]]];
      [|done]. by destruct (errors.Is_NotExist err). }
  split; [exact Hpub|]. split.
  - intros w3 wa err Hst Hren Hne.
    pose proof Hren as Hren'. apply Rename_spec in Hren' as (_ & -> & _).
    split; [done|].
    rewrite (Download_staged _ _ _ _ _ _ Hst). fold t.
    by rewrite Hpub, Hren, Hne.
  - intros w' old Hd Hfaith Hold Hdir Hne Hne'.
    apply Download_success_staged in Hd as (w3 & w4 & Hst & Hp & ->).
    fold t in Hp |- *.
    pose proof (staged_spec _ _ _ _ _ _ Hst)
      as (Hs3 & _ & bytes & nd1 & Hrem & Hd1 & Hstale & Hfresh & Ht3).
    fold t in Hs3, Hstale, Hfresh, Ht3.
    assert (localPath ≠ t) as Hne2 by congruence.
    apply (Hs3 localPath old Hne2 Hdir) in Hold.
    destruct (publish_installs h _ _ _ _ _ Hp Ht3 Hne (λ _, Hne'))
      as (Hlp & _ & Hmoved).
    split; [by apply Hmoved|].
    eexists bytes, _. split; [done|]. split; [exact Hlp|]. cbn. split.
    + intros Hnone. rewrite (Hfresh Hnone). cbn. apply write_over_nil.
    + intros nd0 Hnd0 Hd0. by rewrite <- (Hstale nd0 Hnd0 Hd0).
Qed.

Lemma Download_windows_publish_witness :
  fs (Download Ex.updater Ex.windows Ex.target Ex.local (Ex.installed "old")).1
    !! (Ex.local +:+ ".old") = Some (mkNode 493 (Ex.bytes "old"))
  ∧ ∃ nd,
      fs (Download Ex.updater Ex.windows Ex.target Ex.local
            (Ex.installed "old")).1 !! Ex.local = Some nd ∧
      data nd = Ex.bytes "new".
Proof.
  destruct (Download_windows_publish Ex.updater Ex.windows
              Ex.target Ex.local (Ex.installed "old") eq_refl)
    as (_ & _ & Hok).
  destruct (Hok (Download Ex.updater Ex.windows Ex.target Ex.local
                   (Ex.installed "old")).1 (mkNode 493 (Ex.bytes "old")))
    as (Hold & bytes & nd & Hrem & Hnew & Hfresh & _).
  - vm_compute. reflexivity.
  - intros a b e. discriminate.
  - vm_compute. reflexivity.
  - reflexivity.
  - vm_compute. discriminate.
  - vm_compute. discriminate.
  - split; [exact Hold|]. exists nd. split; [exact Hnew|].
    rewrite Hfresh by (vm_compute; reflexivity). by injection Hrem as <-.
Defined.

(** * The cache check of [Get] *)
Section Cache.
Import os.
Context (u : Updater) (h : Host).

(** A [Download] without error into an empty staging path leaves at
    [localPath] a regular file of exactly the bytes the client
    delivered. *)
Lemma Download_success_fresh (repoPath localPath : string) (w w' : World) :
  Download u h repoPath localPath w = (w', inr ()) →
  let t := stagingPath u localPath in
  fs w !! t = None → t ≠ localPath →
  (PlatformName h = "windows" → t ≠ localPath +:+ ".old") →
  ∃ bytes nd,
    client.remote (client u) repoPath = inr bytes ∧
    fs w' !! localPath = Some nd ∧ data nd = bytes ∧
    IsRegular (mode nd) = true.
Proof.
  intros Hd t Hnone Hne Hne'.
  apply Download_success_staged in Hd as (w3 & w4 & Hst & Hp & ->).
  pose proof (staged_spec _ _ _ _ _ _ Hst)
    as (_ & _ & bytes & nd1 & Hrem & _ & _ & Hfresh & Ht3).
  fold t in Hp, Hfresh, Ht3 |- *.
  destruct (publish_installs h _ _ _ _ _ Hp Ht3 Hne Hne') as (Hlp & _).
  eexists bytes, _. split; [done|]. split; [exact Hlp|].
  rewrite (Hfresh Hnone). cbn [data mode]. split; [apply write_over_nil|].
  rewrite IsRegular_chmod. apply IsRegular_perm.
Qed.

(** The cache hit. *)
Lemma Get_cached (target channel : string) (w : World) (nd : node)
    (meta : data.TargetFileMeta) :
  target ≠ "" → channel ≠ "" →
  fault h (OpStat (LocalPath u h target channel)) = None →
  fs w !! LocalPath u h target channel = Some nd →
  IsRegular (mode nd) = true →
  client.targets (client u) (RepoPath u h target channel) = inr meta →
  map_Forall (λ alg digest, hash h alg (data nd) = digest) (data.Hashes meta) →
  Get u h target channel w =
    ({| fs := fs w; log := EvLookup (RepoPath u h target channel) :: log w |},
     (LocalPath u h target channel, None)).
Proof.
  intros Ht Hc Hfault Hnd Hreg Hmeta Hhash.
  unfold Get. rewrite !decide_False by done.
  unfold Stat, failing. rewrite Hfault, Hnd, Hreg. cbn.
  unfold Lookup, wrap, client.Target. rewrite Hmeta.
  unfold CheckFileHash. cbn. rewrite Hnd.
  by rewrite bool_decide_eq_true_2.
Qed.

End Cache.

(** C3, as the code has it.  For target and channel not empty, on a host
    where stat of the local path is not refused: when the local path
    holds a regular file whose digests are those of the target's
    metadata, [Get] returns the local path, and all it does is the
    metadata lookup: no call of [Download], no fetch, no change to the
    file system.  And when the trust client delivers only bytes that
    have the digests of the metadata, the staging path is free when the
    first [Get] starts and is neither the local path nor, on Windows,
    the local path followed by ".old", and that first [Get] returns
    without error, then a second [Get] is such a cache hit, so that the
    two together fetch at most once. *)
Theorem Get_cached_is_idempotent (u : Updater) (h : Host)
    (target channel : string) (w : World) :
  target ≠ "" → channel ≠ "" →
  let localPath := LocalPath u h target channel in
  let repoPath := RepoPath u h target channel in
  let t := stagingPath u localPath in
  fault h (OpStat localPath) = None →
  (∀ nd meta,
     fs w !! localPath = Some nd → os.IsRegular (mode nd) = true →
     client.targets (client u) repoPath = inr meta →
     map_Forall (λ alg digest, hash h alg (data nd) = digest)
                (data.Hashes meta) →
     Get u h target channel w =
       ({| fs := fs w; log := EvLookup repoPath :: log w |}, (localPath, None)))
  ∧
  (∀ w1 p,
     client.verified h (client u) →
     fs w !! t = None → t ≠ localPath →
     (PlatformName h = "windows" → t ≠ localPath +:+ ".old") →
     Get u h target channel w = (w1, (p, None)) →
     p = localPath ∧
     Get u h target channel w1 =
       ({| fs := fs w1; log := EvLookup repoPath :: log w1 |}, (localPath, None)) ∧
     (count is_fetch (EvLookup repoPath :: log w1)
      ≤ S (count is_fetch (log w)))%nat).
Proof.
  intros Ht Hc localPath repoPath t Hfault. split.
  { intros nd meta. by apply Get_cached. }
  intros w1 p Hver Hfree Hne Hne' Hget.
  (* a download without error, from a world with the files of [w] *)
  assert (∀ wl, fs wl = fs w →
            Download u h repoPath localPath wl = (w1, inr ()) →
            Get u h target channel w1 =
              ({| fs := fs w1; log := EvLookup repoPath :: log w1 |},
               (localPath, None)) ∧
            (count is_fetch (log w1) ≤ S (count is_fetch (log wl)))%nat) as Hdl.
  { intros wl Hfs Hd. split.
    - pose proof Hd as Hd'.
      apply Download_success_fresh in Hd' as (bytes & nd & Hrem & Hnd & Hb & Hreg);
        [|by rewrite Hfs|done..].
      destruct (Hver _ _ Hrem) as (meta & Hmeta & Hhash).
      eapply Get_cached; try done. by rewrite Hb.
    - apply Download_log in Hd as [-> | [-> | [_ ->]]]; unfold count; cbn; lia. }
  unfold Get in Hget. rewrite !decide_False in Hget by done.
  fold localPath repoPath in Hget.
  unfold os.Stat, os.failing in Hget. rewrite Hfault in Hget.
  destruct (fs w !! localPath) as [nd|] eqn:Hnd.
  - destruct (os.IsRegular (mode nd)) eqn:Hreg; [|done]. cbn in Hget.
    unfold Lookup, wrap, client.Target in Hget. fold repoPath in Hget.
    destruct (client.targets (client u) repoPath) as [e|meta] eqn:Hmeta; [done|].
    unfold CheckFileHash in Hget. cbn in Hget. rewrite Hnd in Hget.
    case_bool_decide as Hhash.
    + injection Hget as <- <-. split; [done|]. split.
      * by apply (Get_cached u h target channel _ nd meta).
      * unfold count. cbn. lia.
    + destruct (Download _ _ _ _ _) as [w2 [e|[]]] eqn:Hd; [done|].
      injection Hget as <- <-. split; [done|].
      destruct (λ E, Hdl _ E Hd) as [H1 H2]; [done|]. split; [done|].
      unfold count in *. cbn in *. lia.
  - destruct (Download _ _ _ _ _) as [w2 [e|[]]] eqn:Hd; [done|].
    injection Hget as <- <-. split; [done|].
    destruct (Hdl _ eq_refl Hd) as [H1 H2]. split; [done|].
    unfold count in *. cbn in *. lia.
Qed.

Lemma Ex_repo_verified (h : Host) (name : string) (upd : option error) :
  hash h = (λ _ bytes, bytes) → client.verified h (Ex.repo_at name upd).
Proof.
  intros Hh n bs. cbn. case_decide; [|done]. intros [= <-].
  eexists. split; [done|]. cbn. rewrite Hh.
  by apply map_Forall_singleton.
Qed.

Lemma Get_cached_is_idempotent_witness :
  Get Ex.updater Ex.linux "orbit" "stable"
    (Get Ex.updater Ex.linux "orbit" "stable" Ex.empty).1
    = ({| fs := fs (Get Ex.updater Ex.linux "orbit" "stable" Ex.empty).1;
          log := EvLookup (RepoPath Ex.updater Ex.linux "orbit" "stable")
                   :: log (Get Ex.updater Ex.linux "orbit" "stable" Ex.empty).1 |},
       (LocalPath Ex.updater Ex.linux "orbit" "stable", None))
  ∧ (count is_fetch
       (EvLookup (RepoPath Ex.updater Ex.linux "orbit" "stable")
          :: log (Get Ex.updater Ex.linux "orbit" "stable" Ex.empty).1)
     ≤ S (count is_fetch (log Ex.empty)))%nat.
Proof.
  destruct (Get_cached_is_idempotent Ex.updater Ex.linux "orbit" "stable"
              Ex.empty) as [_ Hsecond];
    [discriminate | discriminate | reflexivity |].
  destruct (Hsecond (Get Ex.updater Ex.linux "orbit" "stable" Ex.empty).1
              Ex.local) as (_ & Hhit & Hcount).
  - by apply Ex_repo_verified.
  - vm_compute. reflexivity.
  - vm_compute. discriminate.
  - discriminate.
  - vm_compute. reflexivity.
  - split; [exact Hhit|exact Hcount].
Defined.

(** C3, as the spec states it, fails in these ways.  With an empty
    channel [Get] returns an error and no path although the file at the
    local path is regular and has the digests of the metadata.  Two
    calls of [Get] fetch twice: when the first download fails (here in
    the smoke test); when the names make the local path the staging path
    itself (target "../staging/x", channel "../.."), so that the first
    [Get] returns without error and leaves nothing at the path; and when
    stat of the local path is refused every time, although the installed
    file has the digests of the metadata. *)
Lemma Get_cached_counterexample :
  (let u := mkUpdater (Ex.options "linux") (Ex.repo_at "orbit/linux/orbit" None) in
   let w := mkWorld {[ "/opt/orbit/bin/orbit/linux/orbit"
                         := mkNode 493 (Ex.bytes "new") ]} [] in
   LocalPath u Ex.linux "orbit" "" = "/opt/orbit/bin/orbit/linux/orbit" ∧
   os.Stat Ex.linux (LocalPath u Ex.linux "orbit" "") w = (w, inr 493) ∧
   os.IsRegular 493 = true ∧
   client.targets (client u) (RepoPath u Ex.linux "orbit" "")
     = inr (data.mkMeta 3 {[ "sha256" := Ex.bytes "new" ]}) ∧
   hash Ex.linux "sha256" (Ex.bytes "new") = Ex.bytes "new" ∧
   Get u Ex.linux "orbit" "" w = (w, ("", Some (New "channel is required"))))
  ∧
  ((Get Ex.updater Ex.broken "orbit" "stable" Ex.empty).2
     = (Ex.local, Some (Wrap (Errno "exit status 1")
                             "exec new version: exec format error")) ∧
   (Get Ex.updater Ex.broken "orbit" "stable"
      (Get Ex.updater Ex.broken "orbit" "stable" Ex.empty).1).2
     = (Ex.local, Some (Wrap (Errno "exit status 1")
                             "exec new version: exec format error")) ∧
   count is_fetch (log Ex.empty) = 0%nat ∧
   count is_fetch
     (log (Get Ex.updater Ex.broken "orbit" "stable"
             (Get Ex.updater Ex.broken "orbit" "stable" Ex.empty).1).1)
     = 2%nat)
  ∧
  (LocalPath Ex.dotted Ex.linux "../staging/x" "../.."
     = stagingPath Ex.dotted
         (LocalPath Ex.dotted Ex.linux "../staging/x" "../..") ∧
   (Get Ex.dotted Ex.linux "../staging/x" "../.." Ex.empty).2
     = ("/opt/orbit/staging/x", None) ∧
   fs (Get Ex.dotted Ex.linux "../staging/x" "../.." Ex.empty).1
     !! "/opt/orbit/staging/x" = None ∧
   (Get Ex.dotted Ex.linux "../staging/x" "../.."
      (Get Ex.dotted Ex.linux "../staging/x" "../.." Ex.empty).1).2
     = ("/opt/orbit/staging/x", None) ∧
   count is_fetch
     (log (Get Ex.dotted Ex.linux "../staging/x" "../.."
             (Get Ex.dotted Ex.linux "../staging/x" "../.." Ex.empty).1).1)
     = 2%nat)
  ∧
  ((Get Ex.updater Ex.blind "orbit" "stable" (Ex.installed "new")).2
     = (Ex.local, None) ∧
   (Get Ex.updater Ex.blind "orbit" "stable"
      (Get Ex.updater Ex.blind "orbit" "stable" (Ex.installed "new")).1).2
     = (Ex.local, None) ∧
   count is_fetch
     (log (Get Ex.updater Ex.blind "orbit" "stable"
             (Get Ex.updater Ex.blind "orbit" "stable"
                (Ex.installed "new")).1).1)
     = 2%nat).
Proof. vm_compute. repeat split; reflexivity. Qed.

(** * More on [Download] *)
Section DownloadMore.
Import os.
Context (u : Updater) (h : Host).

(** X1.  Once the staging file has been opened, nothing is at the staging
    path when [Download] returns, with or without error: the deferred
    removal runs on every way out. *)
Theorem Download_removes_staging (repoPath localPath : string)
    (w w1 w' : World) (t : string) r :
  openStaging u h localPath (entered repoPath localPath w) = (w1, inr t) →
  Download u h repoPath localPath w = (w', r) →
  t = stagingPath u localPath ∧ fs w' !! stagingPath u localPath = None.
Proof.
  intros Ho. rewrite Download_unfold, Ho.
  apply openStaging_spec in Ho as (_ & -> & _). intros Hd. split; [done|].
  destruct (fillStaging _ _ _ _ _ _) as [w2 [e|[]]];
    [injection Hd as <- <-; cbn; by rewrite lookup_delete_eq|].
  destruct (smokeTest _ _ _ _) as [w3 [e|[]]];
    [injection Hd as <- <-; cbn; by rewrite lookup_delete_eq|].
  destruct (publish _ _ _ _) as [w4 r4].
  injection Hd as <- <-. cbn. by rewrite lookup_delete_eq.
Qed.

(** X2.  On a platform other than Windows, or on Windows when
    [localPath] holds a file (not a directory) and is not the staging
    path, a [Download] without error changes no file but the one at
    [localPath], the staging file and, on Windows, the one at
    [localPath].old. *)
Theorem Download_success_frame (repoPath localPath : string) (w w' : World) :
  Download u h repoPath localPath w = (w', inr ()) →
  (PlatformName h ≠ "windows" ∨
   ∃ old, fs w !! localPath = Some old ∧ IsDir (mode old) = false ∧
          stagingPath u localPath ≠ localPath) →
  ∀ p nd,
    p ≠ stagingPath u localPath → p ≠ localPath →
    (PlatformName h = "windows" → p ≠ localPath +:+ ".old") →
    IsDir (mode nd) = false →
    fs w !! p = Some nd ↔ fs w' !! p = Some nd.
Proof.
  intros Hd _ p nd Hpt Hpl Hpo Hnd.
  apply Download_success_staged in Hd as (w3 & w4 & Hst & Hp & ->).
  pose proof (staged_spec _ _ _ _ _ _ Hst) as (Hs3 & _).
  rewrite (Hs3 p nd Hpt Hnd).
  apply publish_spec in Hp as (_ & mid & nd' & Hmid & Hf4 & Hcase).
  cbn. rewrite Hf4, lookup_delete_ne, lookup_insert_ne, lookup_delete_ne by done.
  destruct Hcase as [[-> _] | (Hwin & old & Hold & ->)]; [done|].
  rewrite lookup_insert_ne by (by intros E; apply (Hpo Hwin)).
  by rewrite lookup_delete_ne.
Qed.

Lemma chmod_fresh (perm : Z) :
  chmod_node perm (mkNode (Z.land perm ModePerm) [])
  = mkNode (Z.land perm ModePerm) [].
Proof.
  unfold chmod_node; cbn [mode data]. f_equal.
  rewrite <- Z.land_assoc.
  change (Z.land ModePerm (Z.lnot ModePerm)) with 0.
  by rewrite Z.land_0_r, Z.lor_0_l.
Qed.

Lemma write_over_length (new old : list Byte.byte) :
  List.length (write_over new old)
  = Nat.max (List.length new) (List.length old).
Proof. unfold write_over. rewrite length_app, length_drop. lia. Qed.

Lemma write_over_prefix (new old : list Byte.byte) :
  take (List.length new) (write_over new old) = new.
Proof. unfold write_over. by rewrite take_app_length. Qed.

(** X3.  After a [Download] without error, [localPath] holds a file that
    starts with the bytes the client delivered.  When the staging path
    was free it is exactly those bytes, with the permission bits of the
    executable mode; when a file was there, the new bytes are written
    over it and its tail stays, so the result is never shorter than the
    old staging file. *)
Theorem Download_installs (repoPath localPath : string) (w w' : World) :
  Download u h repoPath localPath w = (w', inr ()) →
  let t := stagingPath u localPath in
  t ≠ localPath →
  (PlatformName h = "windows" → t ≠ localPath +:+ ".old") →
  ∃ bytes nd,
    client.remote (client u) repoPath = inr bytes ∧
    fs w' !! localPath = Some nd ∧
    IsDir (mode nd) = false ∧
    take (List.length bytes) (data nd) = bytes ∧
    (fs w !! t = None →
     nd = mkNode (Z.land (DefaultExecutableMode h) ModePerm) bytes) ∧
    (∀ nd0, fs w !! t = Some nd0 → IsDir (mode nd0) = false →
       data nd = write_over bytes (data nd0) ∧
       List.length (data nd)
       = Nat.max (List.length bytes) (List.length (data nd0))).
Proof.
  intros Hd t Hne Hne'.
  apply Download_success_staged in Hd as (w3 & w4 & Hst & Hp & ->).
  pose proof (staged_spec _ _ _ _ _ _ Hst)
    as (_ & _ & bytes & nd1 & Hrem & Hd1 & Hstale & Hfresh & Ht3).
  fold t in Hp, Hstale, Hfresh, Ht3 |- *.
  destruct (publish_installs h _ _ _ _ _ Hp Ht3 Hne Hne') as (Hlp & _).
  eexists bytes, _. split; [done|]. split; [exact Hlp|]. cbn [mode data].
  split; [by rewrite IsDir_chmod|].
  split; [apply write_over_prefix|]. split.
  - intros Hnone. rewrite (Hfresh Hnone), chmod_fresh. cbn [mode data].
    by rewrite write_over_nil.
  - intros nd0 Hnd0 Hd0. rewrite <- (Hstale nd0 Hnd0 Hd0).
    split; [done|apply write_over_length].
Qed.

(** X4.  One [Download] looks no metadata up, fetches at most once and
    runs the binary at most once; it runs it only after the fetch and
    only for the running platform; and when it returns without error it
    has fetched exactly once. *)
Theorem Download_trace (repoPath localPath : string) (w w' : World) r :
  Download u h repoPath localPath w = (w', r) →
  count is_lookup (log w') = count is_lookup (log w) ∧
  (count is_fetch (log w') ≤ S (count is_fetch (log w)))%nat ∧
  (count is_exec (log w') ≤ S (count is_exec (log w)))%nat ∧
  (count is_exec (log w') = S (count is_exec (log w)) →
   count is_fetch (log w') = S (count is_fetch (log w)) ∧
   Platform (opt u) = PlatformName h) ∧
  (r = inr () → count is_fetch (log w') = S (count is_fetch (log w))).
Proof.
  intros Hd.
  assert (r = inr () → count is_fetch (log w') = S (count is_fetch (log w)))
    as Hok.
  { intros ->. apply Download_success_staged in Hd as (w3 & w4 & Hst & Hp & ->).
    apply publish_spec in Hp as [Hl4 _].
    pose proof (staged_spec _ _ _ _ _ _ Hst) as (_ & Hl3 & _).
    cbn [cleanup Remove set_fs log]. rewrite Hl4.
    by destruct Hl3 as [[-> _] | [-> _]]. }
  apply Download_log in Hd as [Hl | [Hl | [Hp Hl]]]; rewrite Hl in Hok |- *;
    unfold count in *; cbn in *; repeat split; try lia; try done.
Qed.

End DownloadMore.

(** * More on [Get] *)
Section GetMore.
Import os.
Context (u : Updater) (h : Host).

(** The branches of [Get], for target and channel not empty. *)
Lemma Get_cases (target channel : string) (w w' : World) (p : string)
    (e : option error) :
  target ≠ "" → channel ≠ "" →
  Get u h target channel w = (w', (p, e)) →
  let localPath := LocalPath u h target channel in
  let repoPath := RepoPath u h target channel in
  let wl := {| fs := fs w; log := EvLookup repoPath :: log w |} in
  (* stat fails: download *)
  (p = localPath ∧ ∃ r, Download u h repoPath localPath w = (w', r) ∧
                        e = err_of r) ∨
  (* not a regular file *)
  (p = "" ∧ w' = w ∧ e ≠ None) ∨
  (* lookup fails *)
  (p = "" ∧ w' = wl ∧ e ≠ None) ∨
  (* hash does not match: download *)
  (p = localPath ∧ ∃ r, Download u h repoPath localPath wl = (w', r) ∧
                        e = err_of r) ∨
  (* cache hit *)
  (p = localPath ∧ w' = wl ∧ e = None ∧
   ∃ nd, fs w !! localPath = Some nd ∧ IsRegular (mode nd) = true).
Proof.
  intros Ht Hc Hget localPath repoPath wl. unfold Get in Hget.
  rewrite !decide_False in Hget by done. fold localPath repoPath in Hget.
  destruct (Stat h localPath w) as [w1 [e1|m]] eqn:Hs.
  - apply Stat_pure in Hs as ->.
    destruct (Download _ _ _ _ _) as [w2 r] eqn:Hd.
    injection Hget as <- <- <-. left. eauto.
  - pose proof Hs as Hs'. apply Stat_pure in Hs' as ->.
    destruct (IsRegular m) eqn:Hreg; cbn in Hget.
    2:{ injection Hget as <- <- <-. right. left. done. }
    unfold Lookup, wrap, client.Target in Hget. fold repoPath wl in Hget.
    destruct (client.targets (client u) repoPath) as [e2|meta].
    { injection Hget as <- <- <-. right. right. left. done. }
    destruct (CheckFileHash h meta localPath wl) as [w3 [e3|[]]] eqn:Hh.
    + assert (w3 = wl) as ->
        by (unfold CheckFileHash in Hh; repeat case_match; by simplify_eq).
      destruct (Download _ _ _ _ _) as [w4 r] eqn:Hd.
      injection Hget as <- <- <-. right. right. right. left. eauto.
    + assert (w3 = wl) as ->
        by (unfold CheckFileHash in Hh; repeat case_match; by simplify_eq).
      injection Hget as <- <- <-. do 4 right. repeat split; try done.
      unfold Stat, failing, throw in Hs. repeat case_match; simplify_eq.
      eauto.
Qed.

(** X5.  The path [Get] returns is the local path or empty.  It is the
    local path whenever there is no error; and when it is empty there is
    an error, the file system is as before and nothing was fetched or
    run. *)
Theorem Get_result_shape (target channel : string) (w w' : World)
    (p : string) (e : option error) :
  Get u h target channel w = (w', (p, e)) →
  (p = "" ∨ p = LocalPath u h target channel) ∧
  (e = None → p = LocalPath u h target channel) ∧
  (p = "" →
   e ≠ None ∧ fs w' = fs w ∧
   count is_fetch (log w') = count is_fetch (log w) ∧
   count is_exec (log w') = count is_exec (log w)).
Proof.
  intros Hget.
  pose proof (LocalPath_nonempty u h target channel) as Hne.
  destruct (decide (target = "")) as [Ht|Ht].
  { unfold Get in Hget. rewrite decide_True in Hget by done.
    injection Hget as <- <- <-. split; [by left|]. split; done. }
  destruct (decide (channel = "")) as [Hc|Hc].
  { unfold Get in Hget. rewrite decide_False, decide_True in Hget by done.
    injection Hget as <- <- <-. split; [by left|]. split; done. }
  destruct (Get_cases _ _ _ _ _ _ Ht Hc Hget)
    as [(-> & _) | [(-> & -> & He) | [(-> & -> & He)
       | [(-> & _) | (-> & -> & -> & _)]]]];
    (split; [by auto|]); (split; [done|]); try done.
Qed.

(** X6.  One [Get] looks the metadata up at most once, fetches at most
    once and runs the binary at most once. *)
Theorem Get_trace (target channel : string) (w w' : World)
    (p : string) (e : option error) :
  Get u h target channel w = (w', (p, e)) →
  (count is_lookup (log w') ≤ S (count is_lookup (log w)))%nat ∧
  (count is_fetch (log w') ≤ S (count is_fetch (log w)))%nat ∧
  (count is_exec (log w') ≤ S (count is_exec (log w)))%nat.
Proof.
  intros Hget.
  destruct (decide (target = "")) as [Ht|Ht].
  { unfold Get in Hget. rewrite decide_True in Hget by done.
    injection Hget as <- <- <-. lia. }
  destruct (decide (channel = "")) as [Hc|Hc].
  { unfold Get in Hget. rewrite decide_False, decide_True in Hget by done.
    injection Hget as <- <- <-. lia. }
  destruct (Get_cases _ _ _ _ _ _ Ht Hc Hget)
    as [(_ & r & Hd & _) | [(_ & -> & _) | [(_ & -> & _)
       | [(_ & r & Hd & _) | (_ & -> & _)]]]];
    try (apply Download_trace in Hd as (Hl & Hf & Hx & _));
    unfold count in *; cbn in *; lia.
Qed.

(** X7.  When [Get] returns without error, a file is at the path it
    returns. *)
Theorem Get_success_file_present (target channel : string) (w w' : World)
    (p : string) :
  target ≠ "" → channel ≠ "" →
  let localPath := LocalPath u h target channel in
  let t := stagingPath u localPath in
  t ≠ localPath →
  (PlatformName h = "windows" → t ≠ localPath +:+ ".old") →
  Get u h target channel w = (w', (p, None)) →
  ∃ nd, fs w' !! p = Some nd ∧ IsDir (mode nd) = false.
Proof.
  intros Ht Hc localPath t Hne Hne' Hget.
  destruct (Get_cases _ _ _ _ _ _ Ht Hc Hget)
    as [(-> & r & Hd & He) | [(_ & _ & He) | [(_ & _ & He)
       | [(-> & r & Hd & He) | (-> & -> & _ & nd & Hnd & Hreg)]]]];
    try done.
  - destruct r as [?|[]]; [done|].
    destruct (Download_installs u h _ _ _ _ Hd Hne Hne')
      as (bytes & nd & _ & Hnd & Hdir & _). eauto.
  - destruct r as [?|[]]; [done|].
    destruct (Download_installs u h _ _ _ _ Hd Hne Hne')
      as (bytes & nd & _ & Hnd & Hdir & _). eauto.
  - exists nd. split; [done|]. by apply IsRegular_not_dir.
Qed.

(** X8.  When the local file is regular and its digests are not those of
    the metadata, [Get] is [Download] (after the lookup); and when that
    returns without error, the staging path having been free, the local
    path holds a regular file with the digests of the metadata, after
    exactly one fetch. *)
Theorem Get_hash_mismatch_redownloads (target channel : string) (w : World)
    (nd : node) (meta : data.TargetFileMeta) :
  target ≠ "" → channel ≠ "" →
  let localPath := LocalPath u h target channel in
  let repoPath := RepoPath u h target channel in
  let t := stagingPath u localPath in
  let wl := {| fs := fs w; log := EvLookup repoPath :: log w |} in
  fault h (OpStat localPath) = None →
  fs w !! localPath = Some nd → IsRegular (mode nd) = true →
  client.targets (client u) repoPath = inr meta →
  ¬ map_Forall (λ alg digest, hash h alg (data nd) = digest)
      (data.Hashes meta) →
  Get u h target channel w =
    (let '(w2, r) := Download u h repoPath localPath wl in
     (w2, (localPath, err_of r))) ∧
  (∀ w',
     client.verified h (client u) →
     fs w !! t = None → t ≠ localPath →
     (PlatformName h = "windows" → t ≠ localPath +:+ ".old") →
     Get u h target channel w = (w', (localPath, None)) →
     ∃ nd',
       fs w' !! localPath = Some nd' ∧ IsRegular (mode nd') = true ∧
       map_Forall (λ alg digest, hash h alg (data nd') = digest)
         (data.Hashes meta) ∧
       count is_fetch (log w') = S (count is_fetch (log w))).
Proof.
  intros Ht Hc localPath repoPath t wl Hfault Hnd Hreg Hmeta Hmis.
  assert (Get u h target channel w =
    (let '(w2, r) := Download u h repoPath localPath wl in
     (w2, (localPath, err_of r)))) as Hget.
  { unfold Get. rewrite !decide_False by done. fold localPath repoPath.
    unfold Stat, failing. rewrite Hfault, Hnd, Hreg. cbn.
    unfold Lookup, wrap, client.Target. fold repoPath wl. rewrite Hmeta.
    unfold CheckFileHash. cbn. rewrite Hnd.
    by rewrite bool_decide_eq_false_2. }
  split; [exact Hget|].
  intros w' Hver Hfree Hne Hne' Hok. rewrite Hget in Hok.
  destruct (Download u h repoPath localPath wl) as [w2 [e|[]]] eqn:Hd;
    [done|]. injection Hok as <-.
  pose proof Hd as Hd'.
  apply Download_success_fresh in Hd' as (bytes & nd' & Hrem & Hnd' & Hb & Hreg');
    [|done..].
  destruct (Hver _ _ Hrem) as (meta' & Hmeta' & Hhash).
  fold repoPath in Hmeta'. rewrite Hmeta in Hmeta'. injection Hmeta' as <-.
  exists nd'. split; [done|]. split; [done|]. split; [by rewrite Hb|].
  apply Download_trace in Hd as (_ & _ & _ & _ & Hf). by rewrite (Hf eq_refl).
Qed.

End GetMore.

(** * Construction *)
Section ConstructionFacts.
Import os.
Context (h : Host).

Lemma MkdirAll_again (name : string) (perm : Z) (w w' : World) :
  MkdirAll h name perm w = (w', inr ()) →
  MkdirAll h name perm w' = (w', inr ()).
Proof.
  intros H. pose proof H as H'.
  apply MkdirAll_spec in H' as (_ & _ & Hd).
  destruct (Hd eq_refl) as (nd & Hnd & Hdir).
  unfold MkdirAll, failing in *.
  destruct (fault h (OpMkdirAll name)); [done|].
  by rewrite Hnd, Hdir.
Qed.

(** X9.  [initializeDirectories] changes no file and writes nothing on
    the trace; its error is that of the directory creation under
    "initialize directories"; and when it returns without error, the
    directory root/bin exists and calling it again changes nothing. *)
Theorem initializeDirectories_spec (u : Updater) (w w' : World) r :
  update.initializeDirectories h u w = (w', r) →
  log w' = log w ∧ same_files (fs w) (fs w') ∧
  match r with
  | inl e => ∃ c, e = Wrap c "initialize directories"
  | inr _ =>
      (∃ nd, fs w' !! filepath.Join [RootDirectory (opt u); binDir] = Some nd ∧
             IsDir (mode nd) = true) ∧
      update.initializeDirectories h u w' = (w', inr ())
  end.
Proof.
  unfold update.initializeDirectories, update.mkdir_each, pathFromRoot,
    mbind, M_bind, mret, M_ret.
  set (d := filepath.Join [RootDirectory (opt u); binDir]).
  destruct (wrap _ (MkdirAll h d _) w) as [w1 r1] eqn:Hm.
  apply wrap_inv in Hm as (r0 & Hm & ->).
  pose proof Hm as Hm'. apply MkdirAll_spec in Hm' as (Hl & Hs & Hd).
  destruct r0 as [e|[]]; intros [= <- <-].
  - split; [done|]. split; [done|]. eauto.
  - split; [done|]. split; [done|]. split; [by apply Hd|].
    unfold wrap. by rewrite (MkdirAll_again _ _ _ _ Hm).
Qed.

Context (s : Setup).

(** X10.  [New] fails, leaving the world as it is, in this order: when
    the remote store cannot be made; when the root keys of the options
    do not parse, whatever the local store holds; when the local store
    has no root document (or cannot be read) and the trust
    initialisation with the parsed keys and threshold 1 fails. *)
Theorem New_failures (opt : Options) (w : World) :
  (∀ e, HTTPRemoteStore s (ServerURL opt) = Some e →
        update.New h s opt w = (w, inl (Wrap e "init remote store"))) ∧
  (∀ e, HTTPRemoteStore s (ServerURL opt) = None →
        Unmarshal s (RootKeys opt) = inl e →
        update.New h s opt w = (w, inl (Wrap e "unmarshal root keys"))) ∧
  (∀ keys e,
     HTTPRemoteStore s (ServerURL opt) = None →
     Unmarshal s (RootKeys opt) = inr keys →
     (∀ meta, GetMeta s = inr meta → update.no_root meta = true) →
     Init s keys 1 = Some e →
     update.New h s opt w = (w, inl (Wrap e "init tuf client"))).
Proof.
  unfold update.New, throw. split; [|split].
  - by intros e ->.
  - by intros e -> ->.
  - intros keys e -> -> Hroot Hinit. unfold mbind, M_bind.
    destruct (GetMeta s) as [e'|meta]; [by rewrite Hinit|].
    by rewrite (Hroot meta eq_refl), Hinit.
Qed.

(** X11.  When the local store holds a root document, [New] does not
    initialise trust: what it returns does not depend on what the
    initialisation would answer. *)
Theorem New_keeps_stored_root (opt : Options) (w : World)
    (meta : gmap string (option (list Byte.byte)))
    (init' : list Key → Z → option error) :
  GetMeta s = inr meta → update.no_root meta = false →
  update.New h (mkSetup (HTTPRemoteStore s) (Unmarshal s) (GetMeta s)
                  init' (NewClient s)) opt w
  = update.New h s opt w.
Proof.
  intros Hm Hr. unfold update.New. cbn. by rewrite Hm, Hr.
Qed.

(** X12.  When [New] returns an updater, it is the one of the given
    options over the client of the two stores; the remote store was
    made and the root keys parsed; trust was initialised without error
    if the local store had no root document; and the directory root/bin
    exists. *)
Theorem New_success (opt : Options) (w w' : World) (u : Updater) :
  update.New h s opt w = (w', inr u) →
  u = mkUpdater opt (NewClient s) ∧
  HTTPRemoteStore s (ServerURL opt) = None ∧
  (∃ keys, Unmarshal s (RootKeys opt) = inr keys ∧
     ((∀ meta, GetMeta s = inr meta → update.no_root meta = true) →
      Init s keys 1 = None)) ∧
  ∃ nd, fs w' !! filepath.Join [RootDirectory opt; binDir] = Some nd ∧
        IsDir (mode nd) = true.
Proof.
  unfold update.New, throw, mbind, M_bind, mret, M_ret.
  destruct (HTTPRemoteStore s (ServerURL opt)) as [e|]; [done|].
  destruct (Unmarshal s (RootKeys opt)) as [e|keys]; [done|].
  set (needs := match GetMeta s with
                | inl _ => true | inr meta => update.no_root meta end).
  assert ((∀ meta, GetMeta s = inr meta → update.no_root meta = true) →
          needs = true) as Hneeds.
  { intros Hroot. unfold needs. destruct (GetMeta s); [done|]. by apply Hroot. }
  destruct needs.
  - destruct (Init s keys 1) as [e|] eqn:Hinit; [done|].
    destruct (update.initializeDirectories _ _ _) as [w1 [e|[]]] eqn:Hi; [done|].
    intros [= <- <-].
    apply initializeDirectories_spec in Hi as (Hl & Hs & Hd & _).
    split; [done|]. split; [done|]. split; [by exists keys|]. exact Hd.
  - destruct (update.initializeDirectories _ _ _) as [w1 [e|[]]] eqn:Hi; [done|].
    intros [= <- <-].
    apply initializeDirectories_spec in Hi as (Hl & Hs & Hd & _).
    split; [done|]. split; [done|]. split.
    { exists keys. split; [done|]. intros Hroot. by specialize (Hneeds Hroot). }
    exact Hd.
Qed.

End ConstructionFacts.

(** * The staging path *)
Section StagingPath.
Import path.

(** The base name of a clean path of plain elements is its last element. *)
Lemma Base_plain (rooted : bool) (l : list string) (x : string) :
  Forall plain l → plain x →
  Base ((if rooted then "/" else "") +:+ join (l ++ [x])%list) = x.
Proof.
  intros Hl Hx. unfold Base.
  assert (Forall plain (l ++ [x])%list) as Hall
    by (apply Forall_app; split; [done|by constructor]).
  assert ((l ++ [x])%list ≠ []) as Hne by (by destruct l).
  assert (filter (λ e, e ≠ "") (split ((if rooted then "/" else "")
            +:+ join (l ++ [x])%list)) = (l ++ [x])%list) as ->.
  { destruct rooted.
    - change ("/" +:+ join (l ++ [x])%list)
        with (String slash (join (l ++ [x])%list)).
      cbn [split]. rewrite Ascii.eqb_refl.
      rewrite split_join by (done || by apply Forall_plain_split).
      rewrite filter_cons_False by (intros H; by apply H).
      by apply filter_nonempty_plain.
    - change ("" +:+ join (l ++ [x])%list) with (join (l ++ [x])%list).
      rewrite split_join by (done || by apply Forall_plain_split).
      by apply filter_nonempty_plain. }
  by rewrite last_snoc.
Qed.

(** Joining plain elements onto a clean root. *)
Lemma Join_onto_root (rooted : bool) (rs l : list string) :
  rs ≠ [] → Forall plain rs → l ≠ [] → Forall plain l →
  Join [(if rooted then "/" else "") +:+ join rs; join l]
  = (if rooted then "/" else "") +:+ join (rs ++ l)%list.
Proof.
  intros Hne Hrs Hnl Hl.
  assert (join rs ≠ "") as Hr.
  { destruct rs as [|r rs]; [done|].
    apply Forall_cons in Hrs as [(? & _) _]. by apply join_nonempty. }
  assert (join l ≠ "") as Hj.
  { destruct l as [|r l']; [done|].
    apply Forall_cons in Hl as [(? & _) _]. by apply join_nonempty. }
  assert ((if rooted then "/" else "") +:+ join rs ≠ "") as Hroot
    by (by destruct rooted).
  unfold Join. rewrite !filter_cons_True, filter_nil by done.
  change (join [(if rooted then "/" else "") +:+ join rs; join l])
    with (((if rooted then "/" else "") +:+ join rs) +:+ "/" +:+ join l).
  assert (Forall plain (rs ++ l)%list) as Hall by (by apply Forall_app).
  assert ((rs ++ l)%list ≠ []) as Hne' by (by destruct rs).
  rewrite append_assoc, <- join_app by done.
  destruct rooted.
  - change ("/" +:+ join (rs ++ l)%list)
      with (String slash (join (rs ++ l)%list)).
    by apply Clean_plain_abs.
  - change ("" +:+ join (rs ++ l)%list) with (join (rs ++ l)%list).
    by apply Clean_plain_rel.
Qed.


End StagingPath.

(** * When [Download] goes through *)
Section Progress.
Import os.
Context (u : Updater) (h : Host).

(** X14.  On a platform other than Windows, when the system refuses
    nothing, the staging directory and the directory of [localPath]
    exist, the staging path is free, [localPath] is not a directory, the
    client delivers the target and the binary runs (or is for another
    platform), [Download] returns without error. *)
Theorem Download_succeeds (repoPath localPath : string) (w : World)
    (sd dd : node) (bytes : list Byte.byte) :
  PlatformName h ≠ "windows" →
  (∀ op, fault h op = None) →
  let staging := filepath.Join [RootDirectory (opt u); stagingDir] in
  fs w !! staging = Some sd → IsDir (mode sd) = true →
  fs w !! filepath.Dir localPath = Some dd → IsDir (mode dd) = true →
  fs w !! stagingPath u localPath = None →
  (∀ nd, fs w !! localPath = Some nd → IsDir (mode nd) = false) →
  client.remote (client u) repoPath = inr bytes →
  (Platform (opt u) ≠ PlatformName h ∨
   ∃ out, run h bytes "--version" = (out, None)) →
  ∃ w', Download u h repoPath localPath w = (w', inr ()).
Proof.
  intros Hnw Hnf staging Hsd Hsdir Hdd Hddir Hfree Hlp Hrem Hrun.
  rewrite Download_unfold.
  set (t := stagingPath u localPath) in *.
  assert (t ≠ staging) as Hts by congruence.
  assert (t ≠ filepath.Dir localPath) as Htd by congruence.
  (* the staging file is created *)
  set (sd' := chmod_node (DefaultDirMode h) sd).
  set (fresh := mkNode (Z.land (DefaultExecutableMode h) ModePerm) []).
  assert (openStaging u h localPath (entered repoPath localPath w)
          = ({| fs := <[t := fresh]> (<[staging := sd']> (fs w));
                log := EvDownload repoPath localPath :: log w |}, inr t))
    as Ho.
  { unfold openStaging, mbind, M_bind. fold staging.
    unfold platform.ChmodExecutableDirectory.
    unfold wrap, MkdirAll, Chmod, OpenFile, failing, entered.
    rewrite !Hnf. cbn [fs log].
    rewrite Hsd, Hsdir. cbn [fs log set_fs]. rewrite Hsd. cbn [fs log set_fs].
    change (filepath.Join [staging; filepath.Base localPath]) with t.
    rewrite lookup_insert_ne, Hfree by done. done. }
  rewrite Ho.
  (* it is filled and closed *)
  set (m1 := <[t := fresh]> (<[staging := sd']> (fs w))).
  assert (∃ dd', m1 !! filepath.Dir localPath = Some dd' ∧
                 IsDir (mode dd') = true) as (dd' & Hdd' & Hddir').
  { unfold m1. rewrite lookup_insert_ne by done.
    destruct (decide (staging = filepath.Dir localPath)) as [<-|Hne].
    - rewrite lookup_insert_eq. eexists. split; [done|].
      unfold sd'. by rewrite IsDir_chmod.
    - rewrite lookup_insert_ne by done. eauto. }
  set (m2 := <[filepath.Dir localPath := chmod_node (DefaultDirMode h) dd']>
               (<[t := chmod_node (DefaultExecutableMode h) fresh]> m1)).
  set (staged_nd := mkNode (mode (chmod_node (DefaultExecutableMode h) fresh))
                           bytes).
  set (w2 := {| fs := <[t := staged_nd]> m2;
                log := EvFetch repoPath :: EvDownload repoPath localPath
                         :: log w |}).
  assert (fillStaging u h repoPath localPath t
            {| fs := m1; log := EvDownload repoPath localPath :: log w |}
          = (w2, inr ())) as Hf.
  { unfold fillStaging, mbind, M_bind.
    unfold platform.ChmodExecutable, platform.ChmodExecutableDirectory.
    unfold wrap, MkdirAll, Chmod, client.Download, File_Close, File_Write,
      failing, mret, M_ret.
    rewrite !Hnf, Hrem. cbn [fs log set_fs].
    assert (m1 !! t = Some fresh) as -> by (unfold m1; by rewrite lookup_insert_eq).
    cbn [fs log set_fs].
    rewrite (lookup_insert_ne _ t (filepath.Dir localPath)) by done.
    rewrite Hdd', Hddir'. cbn [fs log set_fs].
    rewrite (lookup_insert_ne _ t (filepath.Dir localPath)) by done.
    rewrite Hdd'. cbn [fs log set_fs].
    unfold w2, set_fs. cbn [fs log]. fold m2. f_equal. f_equal.
    apply map_eq. intros p. destruct (decide (p = t)) as [->|Hp].
    - rewrite lookup_alter_eq, lookup_insert_eq. unfold m2.
      rewrite lookup_insert_ne, lookup_insert_eq by done. cbn.
      unfold staged_nd. by rewrite write_over_nil.
    - by rewrite lookup_alter_ne, lookup_insert_ne. }
  rewrite Hf.
  (* it runs, if it is run *)
  assert (smokeTest u h t w2 = (w2, inr ()) ∨
          smokeTest u h t w2
          = ({| fs := fs w2; log := EvExec t "--version" :: log w2 |}, inr ()))
    as Hs.
  { unfold smokeTest, exec.CombinedOutput. case_decide as Hp; [|by left].
    right. destruct Hrun as [Hne | [out Hout]]; [done|].
    unfold w2 at 1 2. cbn [fs]. rewrite lookup_insert_eq.
    unfold staged_nd. cbn [data]. by rewrite Hout. }
  (* and is moved in *)
  assert (∀ w3, fs w3 = fs w2 →
            ∃ w4, publish h localPath t w3 = (w4, inr ())) as Hp.
  { intros w3 H3. unfold publish, mbind, M_bind, mret, M_ret.
    rewrite decide_False by done.
    unfold wrap, Rename, failing. rewrite Hnf, H3. unfold w2. cbn [fs].
    rewrite lookup_insert_eq.
    destruct (decide (localPath = t)) as [E|Hne].
    { rewrite E, lookup_insert_eq. cbn. rewrite Bool.eqb_reflx. eauto. }
    rewrite lookup_insert_ne by done.
    destruct (m2 !! localPath) as [tgt|] eqn:Htgt; [|by eauto].
    assert (IsDir (mode tgt) = false) as Htd'.
    { unfold m2, m1 in Htgt.
      destruct (decide (localPath = filepath.Dir localPath)) as [E|Hn1].
      { exfalso. rewrite <- E in Hdd.
        apply Hlp in Hdd. congruence. }
      rewrite lookup_insert_ne in Htgt by done.
      rewrite !(lookup_insert_ne _ t localPath) in Htgt by done.
      destruct (decide (localPath = staging)) as [E|Hn2].
      { exfalso. rewrite <- E in Hsd. apply Hlp in Hsd. congruence. }
      rewrite lookup_insert_ne in Htgt by done. by apply Hlp in Htgt. }
    rewrite Htd'. unfold staged_nd. cbn [mode].
    rewrite IsDir_chmod. unfold fresh.
    rewrite fresh_file_not_dir. cbn. eauto. }
  destruct Hs as [-> | ->]; lazy beta iota.
  - destruct (Hp w2 eq_refl) as [w4 Hw4]. exists (cleanup t w4).
    by rewrite Hw4.
  - destruct (Hp {| fs := fs w2; log := EvExec t "--version" :: log w2 |}
                eq_refl) as [w4 Hw4].
    exists (cleanup t w4). by rewrite Hw4.
Qed.

(** X15.  The first installation.  With target and channel not empty,
    nothing at the local path, the staging path not the local path, and
    under the conditions of [Download_succeeds] (a platform other than
    Windows, no call refused, the staging directory and the directory of
    the local path in place, the staging path free, the target
    delivered, the binary running or being for another platform), [Get]
    returns the local path without error, having fetched once and looked
    no metadata up, and the local path holds the delivered bytes with
    the permission bits of the executable mode. *)
Theorem Get_installs_missing_target (target channel : string) (w : World)
    (sd dd : node) (bytes : list Byte.byte) :
  target ≠ "" → channel ≠ "" →
  let localPath := LocalPath u h target channel in
  let repoPath := RepoPath u h target channel in
  let t := stagingPath u localPath in
  let staging := filepath.Join [RootDirectory (opt u); stagingDir] in
  PlatformName h ≠ "windows" →
  (∀ op, fault h op = None) →
  fs w !! staging = Some sd → IsDir (mode sd) = true →
  fs w !! filepath.Dir localPath = Some dd → IsDir (mode dd) = true →
  fs w !! t = None → fs w !! localPath = None → t ≠ localPath →
  client.remote (client u) repoPath = inr bytes →
  (Platform (opt u) ≠ PlatformName h ∨
   ∃ out, run h bytes "--version" = (out, None)) →
  ∃ w',
    Get u h target channel w = (w', (localPath, None)) ∧
    fs w' !! localPath
      = Some (mkNode (Z.land (DefaultExecutableMode h) ModePerm) bytes) ∧
    count is_fetch (log w') = S (count is_fetch (log w)) ∧
    count is_lookup (log w') = count is_lookup (log w).
Proof.
  intros Ht Hc localPath repoPath t staging Hnw Hnf Hsd Hsdir Hdd Hddir
    Hfree Habs Hne Hrem Hrun.
  destruct (Download_succeeds repoPath localPath w sd dd bytes)
    as [w' Hd]; try done.
  { intros nd. fold localPath. by rewrite Habs. }
  exists w'. split.
  - unfold Get. rewrite !decide_False by done. fold localPath repoPath.
    unfold Stat, failing. by rewrite Hnf, Habs, Hd.
  - destruct (Download_installs u h _ _ _ _ Hd)
      as (bytes' & nd & Hrem' & Hnd & _ & _ & Hfresh & _); [done..|].
    rewrite Hrem in Hrem'. injection Hrem' as <-.
    split; [by rewrite Hnd, (Hfresh Hfree)|].
    apply Download_trace in Hd as (Hl & _ & _ & _ & Hf).
    split; [by apply Hf|done].
Qed.

End Progress.

(** * The extra properties on concrete worlds *)

Lemma Download_removes_staging_witness :
  fs (Download Ex.updater Ex.broken Ex.target Ex.local
        (Ex.leftover "stale!!")).1
    !! stagingPath Ex.updater Ex.local = None.
Proof.
  apply (Download_removes_staging Ex.updater Ex.broken Ex.target Ex.local
           (Ex.leftover "stale!!")
           (openStaging Ex.updater Ex.broken Ex.local
              (entered Ex.target Ex.local (Ex.leftover "stale!!"))).1
           _ Ex.staged
           (Download Ex.updater Ex.broken Ex.target Ex.local
              (Ex.leftover "stale!!")).2).
  - vm_compute. reflexivity.
  - apply surjective_pairing.
Defined.

Lemma Download_success_frame_witness :
  fs (Download Ex.updater Ex.windows Ex.target Ex.local
        (mkWorld {[ Ex.local := mkNode 493 (Ex.bytes "old");
                    "/opt/orbit/osquery.flags" := mkNode 420 (Ex.bytes "keep") ]}
           [])).1
    !! "/opt/orbit/osquery.flags" = Some (mkNode 420 (Ex.bytes "keep")).
Proof.
  apply (Download_success_frame Ex.updater Ex.windows Ex.target Ex.local
           (mkWorld {[ Ex.local := mkNode 493 (Ex.bytes "old");
                       "/opt/orbit/osquery.flags" := mkNode 420 (Ex.bytes "keep") ]}
              [])).
  - vm_compute. reflexivity.
  - right. exists (mkNode 493 (Ex.bytes "old")).
    split; [vm_compute; reflexivity|]. split; [reflexivity|].
    vm_compute. discriminate.
  - vm_compute. discriminate.
  - discriminate.
  - intros _. discriminate.
  - reflexivity.
  - vm_compute. reflexivity.
Defined.

Lemma Download_installs_witness :
  ∃ nd,
    fs (Download Ex.updater Ex.linux Ex.target Ex.local
          (Ex.leftover "stale!!")).1 !! Ex.local = Some nd ∧
    data nd = os.write_over (Ex.bytes "new") (Ex.bytes "stale!!") ∧
    List.length (data nd) = 7%nat.
Proof.
  destruct (Download_installs Ex.updater Ex.linux Ex.target Ex.local
              (Ex.leftover "stale!!")
              (Download Ex.updater Ex.linux Ex.target Ex.local
                 (Ex.leftover "stale!!")).1)
    as (bytes & nd & Hrem & Hnd & _ & _ & _ & Hstale).
  - vm_compute. reflexivity.
  - vm_compute. discriminate.
  - discriminate.
  - injection Hrem as <-.
    destruct (Hstale (mkNode 384 (Ex.bytes "stale!!"))) as [Hdata Hlen];
      [vm_compute; reflexivity | reflexivity |].
    exists nd. split; [exact Hnd|]. split; [exact Hdata|exact Hlen].
Defined.

Lemma Download_trace_witness :
  count is_fetch
    (log (Download Ex.updater Ex.linux Ex.target Ex.local Ex.empty).1)
  = 1%nat.
Proof.
  apply (Download_trace Ex.updater Ex.linux Ex.target Ex.local Ex.empty
           _ (inr ())); [vm_compute|]; reflexivity.
Defined.

Lemma Get_result_shape_witness :
  fs (Get Ex.updater Ex.linux "" "stable" (Ex.installed "old")).1
  = fs (Ex.installed "old").
Proof.
  apply (Get_result_shape Ex.updater Ex.linux "" "stable"
           (Ex.installed "old") _ ""
           (Some (New "target is required"))); reflexivity.
Defined.

Lemma Get_trace_witness :
  (count is_fetch
     (log (Get Ex.updater Ex.linux "orbit" "stable" Ex.empty).1) ≤ 1)%nat.
Proof.
  apply (Get_trace Ex.updater Ex.linux "orbit" "stable" Ex.empty
           _ Ex.local None).
  vm_compute. reflexivity.
Defined.

Lemma Get_success_file_present_witness :
  ∃ nd,
    fs (Get Ex.updater Ex.linux "orbit" "stable" Ex.empty).1 !! Ex.local
      = Some nd ∧
    os.IsDir (mode nd) = false.
Proof.
  apply (Get_success_file_present Ex.updater Ex.linux "orbit" "stable"
           Ex.empty).
  - discriminate.
  - discriminate.
  - vm_compute. discriminate.
  - discriminate.
  - vm_compute. reflexivity.
Defined.

Lemma Get_hash_mismatch_redownloads_witness :
  Get Ex.updater Ex.linux "orbit" "stable" (Ex.installed "old")
  = (let '(w2, r) :=
       Download Ex.updater Ex.linux
         (RepoPath Ex.updater Ex.linux "orbit" "stable")
         (LocalPath Ex.updater Ex.linux "orbit" "stable")
         {| fs := fs (Ex.installed "old");
            log := EvLookup (RepoPath Ex.updater Ex.linux "orbit" "stable")
                     :: log (Ex.installed "old") |} in
     (w2, (LocalPath Ex.updater Ex.linux "orbit" "stable", err_of r))).
Proof.
  apply (Get_hash_mismatch_redownloads Ex.updater Ex.linux "orbit" "stable"
           (Ex.installed "old") (mkNode 493 (Ex.bytes "old"))
           (data.mkMeta 3 {[ "sha256" := Ex.bytes "new" ]})).
  - discriminate.
  - discriminate.
  - reflexivity.
  - vm_compute. reflexivity.
  - reflexivity.
  - vm_compute. reflexivity.
  - cbn. rewrite map_Forall_singleton. discriminate.
Defined.

Lemma initializeDirectories_spec_witness :
  update.initializeDirectories Ex.linux Ex.updater
    (update.initializeDirectories Ex.linux Ex.updater Ex.empty).1
  = ((update.initializeDirectories Ex.linux Ex.updater Ex.empty).1, inr ()).
Proof.
  apply (initializeDirectories_spec Ex.linux Ex.updater Ex.empty _ (inr ())).
  vm_compute. reflexivity.
Defined.

Lemma New_failures_witness :
  update.New Ex.linux (Ex.setup false (Some (Errno "no signatures")))
    (Ex.options "linux") Ex.empty
  = (Ex.empty, inl (Wrap (Errno "no signatures") "init tuf client")).
Proof.
  apply (New_failures Ex.linux (Ex.setup false (Some (Errno "no signatures")))
           (Ex.options "linux") Ex.empty) with (keys := []);
    [reflexivity | reflexivity | | reflexivity].
  intros meta [= <-]. reflexivity.
Defined.

Lemma New_keeps_stored_root_witness :
  update.New Ex.linux
    (mkSetup (HTTPRemoteStore (Ex.setup true None))
       (Unmarshal (Ex.setup true None)) (GetMeta (Ex.setup true None))
       (λ _ _, Some (Errno "never asked")) (NewClient (Ex.setup true None)))
    (Ex.options "linux") Ex.empty
  = update.New Ex.linux (Ex.setup true None) (Ex.options "linux") Ex.empty.
Proof.
  apply (New_keeps_stored_root Ex.linux (Ex.setup true None)
           (Ex.options "linux") Ex.empty
           {[ "root.json" := Some (Ex.bytes "{}") ]}); reflexivity.
Defined.

Lemma New_success_witness :
  ∃ nd,
    fs (update.New Ex.linux (Ex.setup false None) (Ex.options "linux")
          Ex.empty).1 !! "/opt/orbit/bin" = Some nd ∧
    os.IsDir (mode nd) = true.
Proof.
  apply (New_success Ex.linux (Ex.setup false None) (Ex.options "linux")
           Ex.empty _ Ex.updater).
  vm_compute. reflexivity.
Defined.


Lemma Download_succeeds_witness :
  ∃ w', Download Ex.updater Ex.linux Ex.target Ex.local Ex.prepared
        = (w', inr ()).
Proof.
  apply (Download_succeeds Ex.updater Ex.linux Ex.target Ex.local Ex.prepared
           Ex.dir Ex.dir (Ex.bytes "new")).
  - discriminate.
  - intros op. reflexivity.
  - vm_compute. reflexivity.
  - reflexivity.
  - vm_compute. reflexivity.
  - reflexivity.
  - vm_compute. reflexivity.
  - intros nd H. vm_compute in H. discriminate.
  - reflexivity.
  - right. exists "orbit 0.0.1". reflexivity.
Defined.

Lemma Get_installs_missing_target_witness :
  ∃ w',
    Get Ex.updater Ex.linux "orbit" "stable" Ex.prepared
      = (w', (LocalPath Ex.updater Ex.linux "orbit" "stable", None)) ∧
    fs w' !! LocalPath Ex.updater Ex.linux "orbit" "stable"
      = Some (mkNode (Z.land (DefaultExecutableMode Ex.linux) os.ModePerm)
                (Ex.bytes "new")) ∧
    count is_fetch (log w') = S (count is_fetch (log Ex.prepared)) ∧
    count is_lookup (log w') = count is_lookup (log Ex.prepared).
Proof.
  apply (Get_installs_missing_target Ex.updater Ex.linux "orbit" "stable"
           Ex.prepared Ex.dir Ex.dir (Ex.bytes "new")).
  - discriminate.
  - discriminate.
  - discriminate.
  - intros op. reflexivity.
  - vm_compute. reflexivity.
  - reflexivity.
  - vm_compute. reflexivity.
  - reflexivity.
  - vm_compute. reflexivity.
  - vm_compute. reflexivity.
  - vm_compute. discriminate.
  - reflexivity.
  - right. exists "orbit 0.0.1". reflexivity.
Defined.
